(** * Item Store: the Redis-backed [Item] model and its HTTP facade

    A shallow embedding of [app/models.py] and of the mutating routes of
    [app/server.py], followed by the properties of the specification.

    The sources are Python 2 ([server.py] uses the [print] statement).
    Python 2 has two text types, [str] (bytes) and [unicode]; string
    literals in the sources and tests are [str], while every string that
    Flask hands to a view (query arguments, form fields, decoded JSON) is
    [unicode].  [isinstance(x, str)] is false on a [unicode] object. *)

From Stdlib Require Import ZArith Lia Ascii String.
From stdpp Require Import base option list gmap strings fin_maps pretty sorting.

Local Open Scope Z_scope.
Local Open Scope string_scope.

(** ** Python values *)

(** The values that item fields, request arguments and dictionary entries
    range over: [None], booleans, integers and the two kinds of text.
    Floats, lists and nested dictionaries play no part in the statements
    below and are left out. *)
Inductive pyval : Type :=
  | PNone
  | PBool (b : bool)
  | PInt (z : Z)
  | PStr (s : string)
  | PUnicode (s : string).

Global Instance pyval_eq_dec : EqDecision pyval.
Proof. solve_decision. Defined.

(** A dictionary with string keys, as built by [serialize] or decoded from
    a JSON body. *)
Abbreviation dict := (gmap string pyval).

(** What a view may pass to [deserialize]: a dictionary or anything else. *)
Inductive pyobj : Type :=
  | ODict (d : dict)
  | OVal (v : pyval).

Inductive exn : Type :=
  | DataValidationError (msg : string)
  | NotFound (msg : string)
  | HTTPException (code : Z) (msg : string)
  | BadRequestKeyError (key : string)
  | ResponseError
  | PickleError
  | KeyError (key : string)
  | TypeError
  | ValueError.

Inductive result (A : Type) : Type :=
  | Ok (a : A)
  | Raise (e : exn).
Arguments Ok {A} a.
Arguments Raise {A} e.

(** *** Text helpers *)

Definition is_upper (c : ascii) : bool :=
  let n := N_of_ascii c in ((65 <=? n) && (n <=? 90))%N.

Definition lower_ascii (c : ascii) : ascii :=
  if is_upper c then ascii_of_N (N_of_ascii c + 32) else c.

(** [str.lower()] of Python 2: only the ASCII letters [A-Z] change. *)
Fixpoint lower (s : string) : string :=
  match s with
  | EmptyString => EmptyString
  | String c t => String (lower_ascii c) (lower t)
  end.

Fixpoint is_ascii (s : string) : bool :=
  match s with
  | EmptyString => true
  | String c t => (N_of_ascii c <? 128)%N && is_ascii t
  end.

Definition is_space (c : ascii) : bool :=
  let n := N_of_ascii c in ((n =? 32) || ((9 <=? n) && (n <=? 13)))%N.

Definition digit_of (c : ascii) : option Z :=
  let n := N_of_ascii c in
  if ((48 <=? n) && (n <=? 57))%N then Some (Z.of_N n - 48) else None.

Fixpoint parse_digits (acc : Z) (s : string) : option Z :=
  match s with
  | EmptyString => Some acc
  | String c t =>
      match digit_of c with
      | Some d => parse_digits (10 * acc + d) t
      | None => None
      end
  end.

Fixpoint lstrip (s : string) : string :=
  match s with
  | String c t => if is_space c then lstrip t else s
  | EmptyString => EmptyString
  end.

Fixpoint rstrip (s : string) : string :=
  match s with
  | EmptyString => EmptyString
  | String c t =>
      match rstrip t with
      | EmptyString => if is_space c then EmptyString else String c EmptyString
      | t' => String c t'
      end
  end.

Definition parse_unsigned (s : string) : option Z :=
  match s with
  | EmptyString => None
  | _ => parse_digits 0 s
  end.

(** The decimal literal accepted by [int(text)]: surrounding white space,
    an optional sign, at least one digit. *)
Definition parse_int (s : string) : option Z :=
  match rstrip (lstrip s) with
  | String "-" t => Z.opp <$> parse_unsigned t
  | String "+" t => parse_unsigned t
  | t => parse_unsigned t
  end.

(** The builtin [int(x)]. *)
Definition py_int (v : pyval) : result Z :=
  match v with
  | PInt z => Ok z
  | PBool b => Ok (if b then 1 else 0)
  | PStr s | PUnicode s =>
      match parse_int s with Some z => Ok z | None => Raise ValueError end
  | PNone => Raise TypeError
  end.

(** Truth value of an object in a condition. *)
Definition py_truthy (v : pyval) : bool :=
  match v with
  | PNone => false
  | PBool b => b
  | PInt z => negb (z =? 0)%Z
  | PStr s | PUnicode s => negb (String.eqb s "")
  end.

(** The operator [==].  Booleans are integers; a [str] equals a [unicode]
    when it is ASCII and has the same characters. *)
Definition py_eq (a b : pyval) : bool :=
  match a, b with
  | PNone, PNone => true
  | PBool x, PBool y => Bool.eqb x y
  | PBool x, PInt z | PInt z, PBool x => (z =? (if x then 1 else 0))%Z
  | PInt x, PInt y => (x =? y)%Z
  | PStr x, PStr y => String.eqb x y
  | PUnicode x, PUnicode y => String.eqb x y
  | PStr x, PUnicode y | PUnicode y, PStr x => is_ascii x && String.eqb x y
  | _, _ => false
  end.

(** ** The Redis keyspace *)

(** A Redis value is a byte string; the program stores two kinds: the
    decimal counter under ['index'] and pickled dictionaries. *)
Inductive rvalue : Type :=
  | Counter (n : Z)
  | Pickled (d : dict).

Abbreviation store := (gmap string rvalue).

(** Computations on the shared connection [Item.redis]: the keyspace is
    threaded through, and an exception leaves it as it was when raised. *)
Definition M (A : Type) : Type := store -> store * result A.

Global Instance M_ret : MRet M := fun A a st => (st, Ok a).
Global Instance M_bind : MBind M := fun A B f m st =>
  match m st with
  | (st', Ok a) => f a st'
  | (st', Raise e) => (st', Raise e)
  end.

Definition raise {A} (e : exn) : M A := fun st => (st, Raise e).
Definition lift {A} (r : result A) : M A := fun st => (st, r).

(** The client sends an integer key as its decimal text. *)
Definition redis_key (n : Z) : string := pretty n.

Definition index_key : string := "index".

(** Largest value of a Redis counter (signed 64 bits). *)
Definition redis_int_max : Z := 2 ^ 63 - 1.

Module Redis.

Definition set (k : string) (v : rvalue) : M unit :=
  fun st => (<[k := v]> st, Ok tt).

Definition get (k : string) : M (option rvalue) :=
  fun st => (st, Ok (st !! k)).

Definition exists_ (k : string) : M bool :=
  fun st => (st, Ok (bool_decide (is_Some (st !! k)))).

Definition delete (k : string) : M unit :=
  fun st => (base.delete k st, Ok tt).

(** INCR: a missing key counts as 0; a value that is not an integer, or
    an increment past the 64-bit range, is an error. *)
Definition incr (k : string) : M Z :=
  fun st =>
    match st !! k with
    | None => (<[k := Counter 1]> st, Ok 1)
    | Some (Counter n) =>
        if (n <? redis_int_max)%Z
        then (<[k := Counter (n + 1)]> st, Ok (n + 1))
        else (st, Raise ResponseError)
    | Some (Pickled _) => (st, Raise ResponseError)
    end.

(** KEYS *: every key, in the order of the backing store. *)
Definition keys : M (list string) :=
  fun st => (st, Ok (fst <$> map_to_list st)).

Definition flushall : M unit :=
  fun _ => (∅, Ok tt).

End Redis.

(** [pickle.dumps] and [pickle.loads]. *)
Definition pickle_dumps (d : dict) : rvalue := Pickled d.

Definition pickle_loads (v : option rvalue) : result dict :=
  match v with
  | Some (Pickled d) => Ok d
  | Some (Counter _) => Raise PickleError
  | None => Raise TypeError
  end.

(** [data[key]] on a dictionary. *)
Definition getitem (d : dict) (k : string) : result pyval :=
  match d !! k with
  | Some v => Ok v
  | None => Raise (KeyError k)
  end.

(** ** The validator built from [Item.schema] *)

Inductive ftype : Type := TInteger | TString | TBoolean.

Record rule : Type := mkRule { rule_type : ftype; rule_required : bool }.

(** The type rules of the validation library.  [None] never passes, since
    no field is declared nullable; a boolean is an integer, as in Python. *)
Definition has_type (ty : ftype) (v : pyval) : bool :=
  match ty, v with
  | TInteger, (PInt _ | PBool _) => true
  | TString, (PStr _ | PUnicode _) => true
  | TBoolean, PBool _ => true
  | _, _ => false
  end.

Definition schema_lookup (sch : list (string * rule)) (k : string) : option rule :=
  snd <$> List.find (fun p => String.eqb (fst p) k) sch.

(** [Validator(sch).validate(d)]: every field present is declared in the
    schema and has the declared type, and every required field is present. *)
Definition validate_with (sch : list (string * rule)) (d : dict) : bool :=
  forallb (fun kv =>
             match schema_lookup sch (fst kv) with
             | Some r => has_type (rule_type r) (snd kv)
             | None => false
             end) (map_to_list d)
  && forallb (fun p =>
                implb (rule_required (snd p))
                      (bool_decide (is_Some (d !! fst p)))) sch.

(** ** class Item *)

Module Item.

Record t : Type := mk { id : Z; name : pyval; price : pyval; available : pyval }.

Definition schema : list (string * rule) :=
  [ ("id", mkRule TInteger false);
    ("name", mkRule TString true);
    ("price", mkRule TString true);
    ("available", mkRule TBoolean true) ].

Definition validate : dict -> bool := validate_with schema.

(** [__init__(self, id=0, name=None, price=None, available=True)] *)
Definition init (id0 name0 price0 available0 : pyval) : result t :=
  match py_int id0 with
  | Ok n => Ok (mk n name0 price0 available0)
  | Raise e => Raise e
  end.

Definition with_id (n : Z) (self : t) : t :=
  mk n (name self) (price self) (available self).
Definition with_name (v : pyval) (self : t) : t :=
  mk (id self) v (price self) (available self).
Definition with_price (v : pyval) (self : t) : t :=
  mk (id self) (name self) v (available self).
Definition with_available (v : pyval) (self : t) : t :=
  mk (id self) (name self) (price self) v.

Definition serialize (self : t) : dict :=
  <["id" := PInt (id self)]>
    (<["name" := name self]>
       (<["price" := price self]>
          (<["available" := available self]> ∅))).

(** [deserialize] mutates [self]; the result is the object after the
    call together with the outcome.  The validator's error text, which the
    source appends to the message, is left out. *)
Definition deserialize (self : t) (data : pyobj) : t * result unit :=
  match data with
  | ODict d =>
      if validate d then
        match getitem d "name" with
        | Raise e => (self, Raise e)
        | Ok n =>
            let self1 := with_name n self in
            match getitem d "price" with
            | Raise e => (self1, Raise e)
            | Ok p =>
                let self2 := with_price p self1 in
                match getitem d "available" with
                | Raise e => (self2, Raise e)
                | Ok a => (with_available a self2, Ok tt)
                end
            end
        end
      else (self, Raise (DataValidationError "Invalid item data"))
  | OVal _ => (self, Raise (DataValidationError "Invalid item data"))
  end.

(** [deserialize] returns [self], so a caller can chain it. *)
Definition deserialized (self : t) (data : pyobj) : result t :=
  match deserialize self data with
  | (self', Ok _) => Ok self'
  | (_, Raise e) => Raise e
  end.

(** The expression [Item(data['id']).deserialize(data)]. *)
Definition from_data (data : dict) : result t :=
  match getitem data "id" with
  | Raise e => Raise e
  | Ok v =>
      match init v PNone PNone (PBool true) with
      | Raise e => Raise e
      | Ok item => deserialized item (ODict data)
      end
  end.

Definition next_index : M Z := Redis.incr index_key.

(** [save] returns the object after the call ([self.id] may have been
    assigned). *)
Definition save (self : t) : M t :=
  match name self with
  | PNone => raise (DataValidationError "name attribute is not set")
  | _ =>
      self' ← (if (id self =? 0)%Z
               then n ← next_index; mret (with_id n self)
               else mret self);
      _ ← Redis.set (redis_key (id self')) (pickle_dumps (serialize self'));
      mret self'
  end.

Definition delete (self : t) : M unit := Redis.delete (redis_key (id self)).

Definition remove_all : M unit := Redis.flushall.

Fixpoint all_loop (ks : list string) (results : list t) : M (list t) :=
  match ks with
  | [] => mret results
  | key :: ks' =>
      if bool_decide (key ≠ index_key) then
        raw ← Redis.get key;
        data ← lift (pickle_loads raw);
        item ← lift (from_data data);
        all_loop ks' (results ++ [item])
      else all_loop ks' results
  end.

Definition all : M (list t) :=
  ks ← Redis.keys; all_loop ks [].

Definition find (item_id : Z) : M (option t) :=
  b ← Redis.exists_ (redis_key item_id);
  if b : bool then
    raw ← Redis.get (redis_key item_id);
    data ← lift (pickle_loads raw);
    item ← lift (from_data data);
    mret (Some item)
  else mret None.

(** [x.lower() if isinstance(x, str) else x] *)
Definition fold_case (v : pyval) : pyval :=
  match v with
  | PStr s => PStr (lower s)
  | _ => v
  end.

Fixpoint find_by_loop (attribute : string) (search_criteria : pyval)
         (ks : list string) (results : list t) : M (list t) :=
  match ks with
  | [] => mret results
  | key :: ks' =>
      if bool_decide (key ≠ index_key) then
        raw ← Redis.get key;
        data ← lift (pickle_loads raw);
        v ← lift (getitem data attribute);
        let test_value := fold_case v in
        if py_eq test_value search_criteria then
          item ← lift (from_data data);
          find_by_loop attribute search_criteria ks' (results ++ [item])
        else find_by_loop attribute search_criteria ks' results
      else find_by_loop attribute search_criteria ks' results
  end.

Definition find_by (attribute : string) (value : pyval) : M (list t) :=
  let search_criteria := fold_case value in
  ks ← Redis.keys;
  find_by_loop attribute search_criteria ks [].

Definition find_by_name (v : pyval) : M (list t) := find_by "name" v.
Definition find_by_price (v : pyval) : M (list t) := find_by "price" v.
Definition find_by_availability (v : pyval) : M (list t) := find_by "available" v.

End Item.

(** ** The HTTP facade *)

Module Server.

(** What the views read from the Flask request: the headers, the query
    arguments, whether the framework regards the body as JSON, the decoded
    JSON body ([None] when it does not parse) and the form fields.  The
    framework delivers query arguments and form fields as [unicode]. *)
Record Request : Type := mkRequest {
  headers : gmap string string;
  args : gmap string string;
  is_json : bool;
  json : option pyobj;
  form : gmap string string
}.

Inductive body : Type :=
  | BEmpty
  | BJson (d : dict)
  | BJsonList (l : list dict).

Record Response : Type := mkResponse {
  status : Z;
  payload : body;
  location : option string
}.

Definition HTTP_200_OK : Z := 200.
Definition HTTP_201_CREATED : Z := 201.
Definition HTTP_204_NO_CONTENT : Z := 204.
Definition HTTP_400_BAD_REQUEST : Z := 400.
Definition HTTP_404_NOT_FOUND : Z := 404.
Definition HTTP_415_UNSUPPORTED_MEDIA_TYPE : Z := 415.

Definition abort {A} (code : Z) (msg : string) : M A :=
  raise (HTTPException code msg).

(** [request.headers[k]]: a missing header is a [KeyError]. *)
Definition header (req : Request) (k : string) : M string :=
  match headers req !! k with
  | Some v => mret v
  | None => raise (KeyError k)
  end.

(** [request.form[k]]: a missing field is a bad request. *)
Definition form_field (req : Request) (k : string) : M pyval :=
  match form req !! k with
  | Some v => mret (PUnicode v)
  | None => raise (BadRequestKeyError k)
  end.

(** [request.get_json()]: [None] unless the request is JSON; a JSON body
    that does not parse is a bad request. *)
Definition get_json (req : Request) : M pyobj :=
  if is_json req then
    match json req with
    | Some o => mret o
    | None => abort HTTP_400_BAD_REQUEST "Failed to decode JSON object"
    end
  else mret (OVal PNone).

(** [request.args.get(k)] *)
Definition arg (req : Request) (k : string) : pyval :=
  match args req !! k with
  | Some v => PUnicode v
  | None => PNone
  end.

Definition not_found_msg (item_id : Z) : string :=
  "Item with id '" +:+ pretty item_id +:+ "' was not found.".

Definition not_available_msg (item_id : Z) : string :=
  "Item with id '" +:+ pretty item_id +:+ "' is not available.".

Definition check_content_type (req : Request) (content_type : string) : M unit :=
  ct ← header req "Content-Type";
  if String.eqb ct content_type then mret tt
  else abort HTTP_415_UNSUPPORTED_MEDIA_TYPE
             ("Content-Type must be " +:+ content_type).

(** [item.deserialize(data)] inside a view. *)
Definition deserialize_in_view (item : Item.t) (data : pyobj) : M Item.t :=
  lift (Item.deserialized item data).

Definition list_items (req : Request) : M Response :=
  let price := arg req "price" in
  let name := arg req "name" in
  items ← (if py_truthy price then Item.find_by_price price
           else if py_truthy name then Item.find_by_name name
           else Item.all);
  let results := Item.serialize <$> items in
  mret (mkResponse HTTP_200_OK (BJsonList results) None).

Definition get_items (req : Request) (item_id : Z) : M Response :=
  found ← Item.find item_id;
  match found with
  | None => raise (NotFound (not_found_msg item_id))
  | Some item => mret (mkResponse HTTP_200_OK (BJson (Item.serialize item)) None)
  end.

Definition create_items (req : Request) : M Response :=
  data ← (if bool_decide (headers req !! "Content-Type"
                          = Some "application/x-www-form-urlencoded")
          then
            n ← form_field req "name";
            p ← form_field req "price";
            mret (ODict (<["name" := n]>
                           (<["price" := p]>
                              (<["available" := PBool true]> ∅))))
          else get_json req);
  item ← lift (Item.init (PInt 0) PNone PNone (PBool true));
  item ← deserialize_in_view item data;
  item ← Item.save item;
  let message := Item.serialize item in
  let location_url := "/items/" +:+ pretty (Item.id item) in
  mret (mkResponse HTTP_201_CREATED (BJson message) (Some location_url)).

(** The notification published to the MQTT broker after an update does
    not touch the keyspace and is left out. *)
Definition update_items (req : Request) (item_id : Z) : M Response :=
  _ ← check_content_type req "application/json";
  found ← Item.find item_id;
  match found with
  | None => raise (NotFound (not_found_msg item_id))
  | Some item =>
      data ← get_json req;
      item ← deserialize_in_view item data;
      let item := Item.with_id item_id item in
      item ← Item.save item;
      mret (mkResponse HTTP_200_OK (BJson (Item.serialize item)) None)
  end.

Definition delete_items (req : Request) (item_id : Z) : M Response :=
  found ← Item.find item_id;
  _ ← match found with
      | Some item => Item.delete item
      | None => mret tt
      end;
  mret (mkResponse HTTP_204_NO_CONTENT BEmpty None).

Definition purchase_items (req : Request) (item_id : Z) : M Response :=
  found ← Item.find item_id;
  match found with
  | None => abort HTTP_404_NOT_FOUND (not_found_msg item_id)
  | Some item =>
      if negb (py_truthy (Item.available item)) then
        abort HTTP_400_BAD_REQUEST (not_available_msg item_id)
      else
        let item := Item.with_available (PBool false) item in
        item ← Item.save item;
        mret (mkResponse HTTP_200_OK (BJson (Item.serialize item)) None)
  end.

Definition items_reset (req : Request) : M Response :=
  _ ← Item.remove_all;
  mret (mkResponse HTTP_204_NO_CONTENT BEmpty None).

(** [data_load(payload)]: loads one sample item. *)
Definition data_load (payload : dict) : M unit :=
  n ← lift (getitem payload "name");
  p ← lift (getitem payload "price");
  item ← lift (Item.init (PInt 0) n p (PBool true));
  _ ← Item.save item;
  mret tt.

Definition data_reset : M unit := Item.remove_all.

(** The routes of the service. *)
Inductive call : Type :=
  | ListItems
  | GetItems (item_id : Z)
  | CreateItems
  | UpdateItems (item_id : Z)
  | DeleteItems (item_id : Z)
  | PurchaseItems (item_id : Z)
  | ItemsReset.

Definition dispatch (c : call) (req : Request) : M Response :=
  match c with
  | ListItems => list_items req
  | GetItems i => get_items req i
  | CreateItems => create_items req
  | UpdateItems i => update_items req i
  | DeleteItems i => delete_items req i
  | PurchaseItems i => purchase_items req i
  | ItemsReset => items_reset req
  end.

(** Modelled from the spec: [app/error_handlers.py] and
    [app/custom_exceptions.py] are not among the sources.  The spec's
    error design maps a validation failure to 400, a not-found id to 404
    and a wrong content type to 415; an aborted request answers with the
    code it was aborted with, and any other exception is a server error. *)
Definition status_of_exn (e : exn) : Z :=
  match e with
  | DataValidationError _ => 400
  | NotFound _ => 404
  | HTTPException code _ => code
  | BadRequestKeyError _ => 400
  | _ => 500
  end.

(** The status line the client sees. *)
Definition status_of (r : result Response) : Z :=
  match r with
  | Ok resp => status resp
  | Raise e => status_of_exn e
  end.

(** The [message] entry of the error body the client sees, when there is
    one. *)
Definition message_of (r : result Response) : option string :=
  match r with
  | Raise (DataValidationError m) | Raise (NotFound m)
  | Raise (HTTPException _ m) => Some m
  | _ => None
  end.

End Server.

(** ** Finding the Redis service

    [Item.connect_to_redis] and [Item.init_db] choose the connection that
    the class attribute [Item.redis] holds. *)

Module Connection.

(** The arguments of [Redis(host=..., port=..., password=...)]. *)
Record endpoint : Type := mkEndpoint {
  hostname : string;
  port : pyval;
  password : pyval
}.

(** What [ping()] does on a client: it answers, it raises
    [redis.ConnectionError], or it raises something else. *)
Inductive ping_result : Type :=
  | Pong
  | Refused
  | Broken (e : exn).

(** The surroundings of the process: the credentials found in the
    environment variable [VCAP_SERVICES] when it is set (decoded with
    [json.loads] and read at [['rediscloud'][0]['credentials']], or the
    exception this raises), and the servers that answer. *)
Record env : Type := mkEnv {
  vcap_services : option (result endpoint);
  ping : endpoint -> ping_result
}.

Inductive failure : Type :=
  | ConnectionError (msg : string)
  | Other (e : exn).

Inductive outcome (A : Type) : Type :=
  | Done (a : A)
  | Fail (f : failure).
Arguments Done {A} a.
Arguments Fail {A} f.

Definition localhost : endpoint := mkEndpoint "127.0.0.1" (PInt 6379) PNone.
Definition redis_host : endpoint := mkEndpoint "redis" (PInt 6379) PNone.

Definition no_service : string := "Could not connect to the Redis Service".

(** The state is the class attribute [Item.redis]. *)
Definition connect_to_redis (w : env) (e : endpoint) (redis : option endpoint)
  : option endpoint * outcome (option endpoint) :=
  match ping w e with
  | Pong => (Some e, Done (Some e))
  | Refused => (None, Done None)
  | Broken x => (Some e, Fail (Other x))
  end.

Definition init_db (w : env) (client : option endpoint) (redis : option endpoint)
  : option endpoint * outcome unit :=
  match client with
  | Some c =>
      match ping w c with
      | Pong => (Some c, Done tt)
      | Refused => (None, Fail (ConnectionError no_service))
      | Broken x => (Some c, Fail (Other x))
      end
  | None =>
      let discovered :=
        match vcap_services w with
        | Some (Ok creds) => connect_to_redis w creds redis
        | Some (Raise x) => (redis, Fail (Other x))
        | None =>
            match connect_to_redis w localhost redis with
            | (None, Done _) => connect_to_redis w redis_host None
            | r => r
            end
        end in
      match discovered with
      | (Some c, Done _) => (Some c, Done tt)
      | (None, Done _) => (None, Fail (ConnectionError no_service))
      | (redis', Fail f) => (redis', Fail f)
      end
  end.

End Connection.

(** [needle in haystack] on text. *)
Definition contains (needle haystack : string) : Prop :=
  exists pre post, haystack = pre +:+ needle +:+ post.

(** ** Scenario definitions used by the statements *)

(** The field types that the schema asks of an item. *)
Definition is_text (v : pyval) : bool :=
  match v with PStr _ | PUnicode _ => true | _ => false end.

Definition is_boolean (v : pyval) : bool :=
  match v with PBool _ => true | _ => false end.

Definition well_typed (it : Item.t) : bool :=
  is_text (Item.name it) && is_text (Item.price it) && is_boolean (Item.available it).

(** The keyspace holds [it] the way [save] writes it: its pickled
    dictionary under the key of its id. *)
Definition holds (st : store) (it : Item.t) : Prop :=
  st !! redis_key (Item.id it) = Some (pickle_dumps (Item.serialize it)).

(** Every record of the keyspace, the counter apart, is what [save]
    writes for an item that passes the schema. *)
Definition records_valid (st : store) : Prop :=
  forall k v, st !! k = Some v -> k <> index_key ->
              exists it, v = pickle_dumps (Item.serialize it)
                         /\ well_typed it = true.

(** The test of the scan in [__find_by], on an item read back from the
    keyspace: its attribute, case-folded if it is a [str], equals the
    case-folded query. *)
Definition matches (attribute : string) (value : pyval) (it : Item.t) : bool :=
  match Item.serialize it !! attribute with
  | Some v => py_eq (Item.fold_case v) (Item.fold_case value)
  | None => false
  end.

(** The value of the auto-increment counter (0 before the first INCR). *)
Definition counter_value (st : store) : Z :=
  match st !! index_key with
  | Some (Counter n) => n
  | _ => 0
  end.

(** The shape of every keyspace that the routes build from a flushed
    store: the counter is not negative, and every other key is the key of
    a non-zero id and holds the record of an item with that id that passes
    the schema. *)
Definition store_ok (st : store) : Prop :=
  0 <= counter_value st
  /\ forall k v, st !! k = Some v -> k <> index_key ->
                 exists it, v = pickle_dumps (Item.serialize it)
                            /\ well_typed it = true
                            /\ k = redis_key (Item.id it)
                            /\ Item.id it <> 0.

(** The ids of the records lie between 1 and the counter: each was handed
    out by the counter. *)
Definition ids_issued (st : store) : Prop :=
  forall k v, st !! k = Some v -> k <> index_key ->
              exists it, v = pickle_dumps (Item.serialize it)
                         /\ k = redis_key (Item.id it)
                         /\ 0 < Item.id it <= counter_value st.

(** What one request may do to the keyspace: nothing, one [save] of an
    item that passes the schema and is new or already stored, the removal
    of one record, or a flush. *)
Inductive effect (st : store) : store -> Prop :=
  | effect_none : effect st st
  | effect_save (it : Item.t) :
      well_typed it = true ->
      Item.id it = 0 \/ is_Some (st !! redis_key (Item.id it)) ->
      effect st (Item.save it st).1
  | effect_delete (i : Z) : effect st (delete (redis_key i) st)
  | effect_flush : effect st ∅.

(** The counter can be incremented: it is unset, or an integer below the
    largest value the store can count to. *)
Definition counter_ready (st : store) : Prop :=
  match st !! index_key with
  | None => True
  | Some (Counter n) => n < redis_int_max
  | Some (Pickled _) => False
  end.

(** The keyspace after a sequence of requests. *)
Fixpoint serve (calls : list (Server.call * Server.Request)) (st : store) : store :=
  match calls with
  | [] => st
  | (c, req) :: rest => serve rest (Server.dispatch c req st).1
  end.

(** What one [save] of a sequence did to the id. *)
Inductive saved : Type :=
  | Assigned (n : Z)
  | Kept (n : Z).

Definition saved_id (s : saved) : Z :=
  match s with Assigned n | Kept n => n end.

Definition assigned_id (s : saved) : option Z :=
  match s with Assigned n => Some n | Kept _ => None end.

(** A caller saving the items one after the other; a save that raises is
    skipped, the others are recorded. *)
Fixpoint save_all (items : list Item.t) (st : store) : store * list saved :=
  match items with
  | [] => (st, [])
  | it :: rest =>
      match Item.save it st with
      | (st', Ok it') =>
          let (st'', log) := save_all rest st' in
          (st'', (if (Item.id it =? 0)%Z
                  then Assigned (Item.id it')
                  else Kept (Item.id it')) :: log)
      | (st', Raise _) => save_all rest st'
      end
  end.

Definition assigned_ids (log : list saved) : list Z := omap assigned_id log.



(** ** Sample data

    The items of the test suites, and keyspaces built from them. *)

Definition fido : Item.t := Item.mk 0 (PStr "fido") (PStr "dog") (PBool true).
Definition kitty : Item.t := Item.mk 0 (PStr "kitty") (PStr "cat") (PBool true).

(** [Item(0, "", "cat")]: an empty name. *)
Definition nameless : Item.t := Item.mk 0 (PStr "") (PStr "cat") (PBool true).

(** [Item(0, None, "cat")]: no name, as in [test_save_a_item_with_no_name]. *)
Definition unnamed : Item.t := Item.mk 0 PNone (PStr "cat") (PBool true).

(** [Item(0, "fido")]: the price keeps its default, [None]. *)
Definition priceless : Item.t := Item.mk 0 (PStr "fido") PNone (PBool true).

(** The keyspace after [remove_all] and the two [data_load] calls of the
    server tests. *)
Definition two_items : store := (save_all [fido; kitty] ∅).1.

Definition fido1 : Item.t := Item.with_id 1 fido.
Definition kitty2 : Item.t := Item.with_id 2 kitty.
Definition sold_kitty2 : Item.t := Item.with_available (PBool false) kitty2.

(** The same keyspace after kitty was purchased. *)
Definition kitty_sold : store :=
  <[redis_key 2 := pickle_dumps (Item.serialize sold_kitty2)]> two_items.

(** Requests of a client. *)
Definition json_headers : gmap string string :=
  {["Content-Type" := "application/json"]}.

(** A request declared as [text/plain], with a body that is valid JSON. *)
Definition text_request : Server.Request :=
  Server.mkRequest {["Content-Type" := "text/plain"]} ∅ false
    (Some (ODict (<["name" := PUnicode "sammy"]>
                    (<["price" := PUnicode "snake"]>
                       (<["available" := PBool true]> ∅))))) ∅.

(** [POST /items] with the JSON body [{"name": "Fido", "price": "dog",
    "available": true}]; the decoder yields [unicode] strings. *)
Definition post_Fido : Server.Request :=
  Server.mkRequest json_headers ∅ true
    (Some (ODict (<["name" := PUnicode "Fido"]>
                    (<["price" := PUnicode "dog"]>
                       (<["available" := PBool true]> ∅))))) ∅.

(** [GET /items?name=FIDO] *)
Definition query_FIDO : Server.Request :=
  Server.mkRequest ∅ {["name" := "FIDO"]} false None ∅.

(** The keyspace after that request on a flushed store. *)
Definition posted_Fido : store := (Server.create_items post_Fido ∅).1.

(** The keyspace after [Item(0, "Fido", "DOG").save()], whose strings are
    [str] literals, as in [test_for_case_insensitive]. *)
Definition saved_Fido : store :=
  (Item.save (Item.mk 0 (PStr "Fido") (PStr "DOG") (PBool true)) ∅).1.

(** The dictionary of [test_deserialize_a_item]. *)
Definition kitty_data : dict :=
  <["id" := PInt 1]>
    (<["name" := PStr "kitty"]>
       (<["price" := PStr "cat"]> (<["available" := PBool true]> ∅))).

(** [PUT /items/2] of [test_update_item]. *)
Definition tabby_data : dict :=
  <["name" := PUnicode "kitty"]>
    (<["price" := PUnicode "tabby"]> (<["available" := PBool true]> ∅)).

Definition put_tabby : Server.Request :=
  Server.mkRequest json_headers ∅ true (Some (ODict tabby_data)) ∅.

(** A JSON body without a name, as in [test_create_item_with_no_name]. *)
Definition post_no_name : Server.Request :=
  Server.mkRequest json_headers ∅ true
    (Some (ODict (<["price" := PUnicode "dog"]> ∅))) ∅.

(** A form submission. *)
Definition form_request : Server.Request :=
  Server.mkRequest {["Content-Type" := "application/x-www-form-urlencoded"]}
    ∅ false None
    (<["name" := "sammy"]> (<["price" := "snake"]> ∅)).

(** [GET /items?price=DOG&name=kitty] *)
Definition query_price_and_name : Server.Request :=
  Server.mkRequest ∅ (<["price" := "dog"]> (<["name" := "kitty"]> ∅))
    false None ∅.

(** A request without headers, arguments or body. *)
Definition plain_request : Server.Request :=
  Server.mkRequest ∅ ∅ false None ∅.

(** Surroundings for the connection tests: a bound service that is down
    while a server answers on the local host, and a machine where only the
    host named [redis] answers. *)
Definition bound_service : Connection.endpoint :=
  Connection.mkEndpoint "redis.example.com" (PUnicode "6379") (PUnicode "secret").

Definition bound_down : Connection.env :=
  Connection.mkEnv (Some (Ok bound_service))
    (fun e => if String.eqb (Connection.hostname e) "127.0.0.1"
              then Connection.Pong else Connection.Refused).

Definition only_redis_host : Connection.env :=
  Connection.mkEnv None
    (fun e => if String.eqb (Connection.hostname e) "redis"
              then Connection.Pong else Connection.Refused).

(** Unfolding of the keyspace monad. *)
Ltac run_M :=
  unfold mbind, mret, M_bind, M_ret, raise, lift,
    Redis.set, Redis.get, Redis.exists_, Redis.delete, Redis.flushall in *.

(** ** Auxiliary facts *)

Section Keys.

Lemma redis_key_inj (i j : Z) : redis_key i = redis_key j -> i = j.
Proof. unfold redis_key. apply pretty_Z_inj. Qed.

Lemma pretty_N_go_head (x : N) (s : string) :
  (0 < x)%N ->
  exists c t, pretty_N_go x s = String c t /\ c <> "i"%char /\ c <> "-"%char.
Proof.
  revert s. induction (N.lt_wf_0 x) as [x _ IH]; intros s Hx.
  rewrite pretty_N_go_step by done.
  destruct (decide (x `div` 10 = 0)%N) as [Hz|Hnz].
  - rewrite Hz, pretty_N_go_0. eexists _, _. split; [reflexivity|].
    unfold pretty_N_char. split; repeat case_match; discriminate.
  - apply IH; [apply N.div_lt; lia | by apply N.neq_0_lt_0].
Qed.

Lemma pretty_pos_head (p : positive) :
  exists c t, pretty (N.pos p) = String c t /\ c <> "i"%char.
Proof.
  unfold pretty, pretty_N. rewrite decide_False by done.
  destruct (pretty_N_go_head (N.pos p) "") as (c & t & H & Hc & _); [lia|].
  eauto.
Qed.

Lemma redis_key_ne_index (i : Z) : redis_key i <> index_key.
Proof.
  unfold redis_key, index_key, pretty, pretty_Z. destruct i as [|p|p].
  - discriminate.
  - destruct (pretty_pos_head p) as (c & t & H & Hc).
    unfold pretty, pretty_positive. rewrite H. intros [= ? ?]. done.
  - discriminate.
Qed.

End Keys.

Section Validation.

Lemma forallb_map_to_list (f : string * pyval -> bool) (d : dict) :
  forallb f (map_to_list d) = true <->
  (forall k v, d !! k = Some v -> f (k, v) = true).
Proof.
  rewrite forallb_forall. split.
  - intros H k v Hkv. apply H, list_elem_of_In, elem_of_map_to_list, Hkv.
  - intros H [k v] Hin. apply H, elem_of_map_to_list, list_elem_of_In, Hin.
Qed.

Lemma schema_lookup_Some (k : string) (r : rule) :
  schema_lookup Item.schema k = Some r ->
  (k = "id" /\ r = mkRule TInteger false)
  \/ (k = "name" /\ r = mkRule TString true)
  \/ (k = "price" /\ r = mkRule TString true)
  \/ (k = "available" /\ r = mkRule TBoolean true).
Proof.
  unfold schema_lookup, Item.schema. cbn [List.find fst].
  repeat (match goal with
          | |- context [String.eqb ?a k] =>
              destruct (String.eqb_spec a k) as [<-|_]
          end; [simpl; intros [= <-]; tauto|]).
  simpl. discriminate.
Qed.

Lemma validate_spec (d : dict) :
  Item.validate d = true <->
  (forall k v, d !! k = Some v ->
     exists r, schema_lookup Item.schema k = Some r
               /\ has_type (rule_type r) v = true)
  /\ is_Some (d !! "name") /\ is_Some (d !! "price")
  /\ is_Some (d !! "available").
Proof.
  unfold Item.validate, validate_with.
  rewrite andb_true_iff, forallb_map_to_list. simpl.
  rewrite !andb_true_iff, !bool_decide_eq_true. split.
  - intros [Hall (Hn & Hp & Ha & _)]. split; [|done].
    intros k v Hkv. specialize (Hall k v Hkv). simpl in Hall.
    destruct (schema_lookup Item.schema k); [eauto|discriminate].
  - intros [Hall (Hn & Hp & Ha)]. split; [|done].
    intros k v Hkv. simpl.
    destruct (Hall k v Hkv) as (r & -> & Hr). done.
Qed.

Lemma validate_field (d : dict) (k : string) (r : rule) :
  Item.validate d = true ->
  schema_lookup Item.schema k = Some r -> rule_required r = true ->
  exists v, d !! k = Some v /\ has_type (rule_type r) v = true.
Proof.
  rewrite validate_spec. intros [Hall (Hn & Hp & Ha)] Hk Hreq.
  assert (is_Some (d !! k)) as [v Hv].
  { apply schema_lookup_Some in Hk as [[-> ->]|[[-> ->]|[[-> ->]|[-> ->]]]];
      [discriminate|done..]. }
  exists v. split; [done|].
  destruct (Hall k v Hv) as (r' & Hk' & Hty). congruence.
Qed.

Lemma has_type_string (v : pyval) : has_type TString v = is_text v.
Proof. by destruct v. Qed.

Lemma has_type_boolean (v : pyval) : has_type TBoolean v = is_boolean v.
Proof. by destruct v. Qed.

(** A dictionary that validates carries a textual name and price and a
    boolean availability. *)
Lemma validate_fields (d : dict) :
  Item.validate d = true ->
  exists n p a,
    d !! "name" = Some n /\ is_text n = true
    /\ d !! "price" = Some p /\ is_text p = true
    /\ d !! "available" = Some a /\ is_boolean a = true.
Proof.
  intros Hv.
  destruct (validate_field d "name" _ Hv eq_refl eq_refl) as (n & Hn & Hnt).
  destruct (validate_field d "price" _ Hv eq_refl eq_refl) as (p & Hp & Hpt).
  destruct (validate_field d "available" _ Hv eq_refl eq_refl) as (a & Ha & Hat).
  cbn [rule_type] in *. rewrite has_type_string in Hnt, Hpt.
  rewrite has_type_boolean in Hat. eauto 10.
Qed.

Lemma serialize_lookup (it : Item.t) (k : string) (v : pyval) :
  Item.serialize it !! k = Some v <->
  (k = "id" /\ v = PInt (Item.id it))
  \/ (k = "name" /\ v = Item.name it)
  \/ (k = "price" /\ v = Item.price it)
  \/ (k = "available" /\ v = Item.available it).
Proof.
  unfold Item.serialize. rewrite !lookup_insert_Some, lookup_empty.
  split.
  - intros [[<- <-]|[? [[<- <-]|[? [[<- <-]|[? [[<- <-]|[? ?]]]]]]]];
      try tauto. done.
  - intros [[-> ->]|[[-> ->]|[[-> ->]|[-> ->]]]]; [tauto|right..];
      (split; [done|]); [tauto|right..]; (split; [done|]); [tauto|right].
    split; [done|]. tauto.
Qed.

Lemma serialize_id (it : Item.t) :
  Item.serialize it !! "id" = Some (PInt (Item.id it)).
Proof. apply serialize_lookup. tauto. Qed.

Lemma serialize_name (it : Item.t) :
  Item.serialize it !! "name" = Some (Item.name it).
Proof. apply serialize_lookup. tauto. Qed.

Lemma serialize_price (it : Item.t) :
  Item.serialize it !! "price" = Some (Item.price it).
Proof. apply serialize_lookup. tauto. Qed.

Lemma serialize_available (it : Item.t) :
  Item.serialize it !! "available" = Some (Item.available it).
Proof. apply serialize_lookup. tauto. Qed.

Lemma validate_serialize (it : Item.t) :
  Item.validate (Item.serialize it) = well_typed it.
Proof.
  destruct (well_typed it) eqn:Hwt.
  - unfold well_typed in Hwt. rewrite !andb_true_iff in Hwt.
    destruct Hwt as [[Hn Hp] Ha].
    apply validate_spec. split.
    + intros k v [[-> ->]|[[-> ->]|[[-> ->]|[-> ->]]]]%serialize_lookup;
        eexists; (split; [reflexivity|]); simpl;
        rewrite ?has_type_string, ?has_type_boolean; done.
    + rewrite serialize_name, serialize_price, serialize_available. eauto.
  - destruct (Item.validate (Item.serialize it)) eqn:Hv; [|done].
    apply validate_fields in Hv as (n & p & a & Hn & Hnt & Hp & Hpt & Ha & Hat).
    rewrite serialize_name in Hn. rewrite serialize_price in Hp.
    rewrite serialize_available in Ha. simplify_eq.
    unfold well_typed in Hwt. rewrite Hnt, Hpt, Hat in Hwt. done.
Qed.

(** Reading back what [serialize] wrote. *)
Lemma from_data_serialize (it : Item.t) :
  Item.from_data (Item.serialize it) =
  if well_typed it then Ok it
  else Raise (DataValidationError "Invalid item data").
Proof.
  unfold Item.from_data, getitem. rewrite serialize_id. simpl.
  unfold Item.deserialized, Item.deserialize.
  rewrite validate_serialize. destruct (well_typed it); [|done].
  unfold getitem.
  rewrite serialize_name, serialize_price, serialize_available.
  by destruct it.
Qed.

End Validation.

Section Model.

Lemma incr_spec (st : store) :
  Redis.incr index_key st =
  match st !! index_key with
  | None => (<[index_key := Counter 1]> st, Ok 1)
  | Some (Counter n) =>
      if (n <? redis_int_max)%Z
      then (<[index_key := Counter (n + 1)]> st, Ok (n + 1))
      else (st, Raise ResponseError)
  | Some (Pickled _) => (st, Raise ResponseError)
  end.
Proof. reflexivity. Qed.

(** A successful INCR returns the counter plus one and stores it. *)
Lemma incr_ok (st st1 : store) (n : Z) :
  Redis.incr index_key st = (st1, Ok n) ->
  n = counter_value st + 1 /\ st1 = <[index_key := Counter n]> st.
Proof.
  rewrite incr_spec. unfold counter_value.
  destruct (st !! index_key) as [[m|d]|]; [|discriminate|].
  - destruct (m <? redis_int_max)%Z; [|discriminate].
    intros [= <- <-]. done.
  - intros [= <- <-]. done.
Qed.

Lemma incr_raise (st st1 : store) (e : exn) :
  Redis.incr index_key st = (st1, Raise e) -> st1 = st.
Proof.
  rewrite incr_spec.
  destruct (st !! index_key) as [[m|d]|]; [| |discriminate].
  - destruct (m <? redis_int_max)%Z; [discriminate|]. by intros [= <- _].
  - by intros [= <- _].
Qed.

Lemma save_unset (it : Item.t) (st : store) :
  Item.name it = PNone ->
  Item.save it st =
  (st, Raise (DataValidationError "name attribute is not set")).
Proof. unfold Item.save. intros ->. reflexivity. Qed.

(** With an id, [save] writes the record under that id and nothing else. *)
Lemma save_keep (it : Item.t) (st : store) :
  Item.name it <> PNone -> Item.id it <> 0 ->
  Item.save it st =
  (<[redis_key (Item.id it) := pickle_dumps (Item.serialize it)]> st, Ok it).
Proof.
  intros Hn Hid. unfold Item.save.
  apply Z.eqb_neq in Hid.
  destruct (Item.name it); [done|..]; run_M; rewrite Hid; reflexivity.
Qed.

(** Without an id, [save] takes the next counter value first. *)
Lemma save_new (it : Item.t) (st : store) :
  Item.name it <> PNone -> Item.id it = 0 ->
  Item.save it st =
  match Redis.incr index_key st with
  | (st1, Ok n) =>
      (<[redis_key n := pickle_dumps (Item.serialize (Item.with_id n it))]> st1,
       Ok (Item.with_id n it))
  | (st1, Raise e) => (st1, Raise e)
  end.
Proof.
  intros Hn Hid. unfold Item.save, Item.next_index.
  apply Z.eqb_eq in Hid.
  destruct (Item.name it); [done|..]; run_M; rewrite Hid;
    destruct (Redis.incr index_key st) as [st1 [n|e]]; reflexivity.
Qed.

(** Every successful [save] leaves the saved object in the keyspace. *)
Lemma save_ok (it it' : Item.t) (st st' : store) :
  Item.save it st = (st', Ok it') ->
  Item.name it <> PNone
  /\ it' = Item.with_id (Item.id it') it
  /\ holds st' it'
  /\ (Item.id it <> 0 ->
      Item.id it' = Item.id it
      /\ st' = <[redis_key (Item.id it) := pickle_dumps (Item.serialize it)]> st)
  /\ (Item.id it = 0 ->
      Item.id it' = counter_value st + 1
      /\ st' = <[redis_key (Item.id it') := pickle_dumps (Item.serialize it')]>
                 (<[index_key := Counter (Item.id it')]> st)).
Proof.
  intros Hs.
  assert (Item.name it <> PNone) as Hn.
  { intros Hnone. rewrite (save_unset _ _ Hnone) in Hs. discriminate. }
  split; [done|].
  destruct (decide (Item.id it = 0)) as [Hz|Hnz].
  - rewrite (save_new _ _ Hn Hz) in Hs.
    destruct (Redis.incr index_key st) as [st1 [n|e]] eqn:Hincr; [|discriminate].
    injection Hs as <- <-. apply incr_ok in Hincr as [-> ->].
    split; [done|]. split; [apply lookup_insert_eq|].
    split; [done|]. intros _. done.
  - rewrite (save_keep _ _ Hn Hnz) in Hs. injection Hs as <- <-.
    split; [by destruct it|]. split; [apply lookup_insert_eq|].
    split; [done|]. done.
Qed.

(** A [save] that raises wrote nothing. *)
Lemma save_raise (it : Item.t) (st st' : store) (e : exn) :
  Item.save it st = (st', Raise e) -> st' = st.
Proof.
  intros Hs.
  destruct (decide (Item.name it = PNone)) as [Hn|Hn].
  { rewrite (save_unset _ _ Hn) in Hs. by injection Hs as <- _. }
  destruct (decide (Item.id it = 0)) as [Hz|Hnz].
  - rewrite (save_new _ _ Hn Hz) in Hs.
    destruct (Redis.incr index_key st) as [st1 [n|e']] eqn:Hincr; [discriminate|].
    injection Hs as <- _. by apply incr_raise in Hincr.
  - rewrite (save_keep _ _ Hn Hnz) in Hs. discriminate.
Qed.

Lemma find_absent (i : Z) (st : store) :
  st !! redis_key i = None -> Item.find i st = (st, Ok None).
Proof.
  intros Hk. unfold Item.find. run_M. rewrite Hk.
  rewrite bool_decide_eq_false_2; [done|]. by intros [? ?].
Qed.

Lemma find_record (i : Z) (st : store) (d : dict) :
  st !! redis_key i = Some (Pickled d) ->
  Item.find i st =
  (st, match Item.from_data d with
       | Ok item => Ok (Some item)
       | Raise e => Raise e
       end).
Proof.
  intros Hk. unfold Item.find. run_M. rewrite Hk.
  rewrite bool_decide_eq_true_2 by eauto. simpl. rewrite ?Hk. simpl.
  by destruct (Item.from_data d).
Qed.

(** [find] on an item that the keyspace holds. *)
Lemma find_holds (it : Item.t) (st : store) :
  holds st it -> well_typed it = true ->
  Item.find (Item.id it) st = (st, Ok (Some it)).
Proof.
  intros Hh Hwt. rewrite (find_record _ _ _ Hh).
  rewrite from_data_serialize, Hwt. done.
Qed.

Lemma find_store (i : Z) (st : store) : (Item.find i st).1 = st.
Proof.
  unfold Item.find. run_M.
  destruct (bool_decide (is_Some (st !! redis_key i))); [|done].
  destruct (pickle_loads (st !! redis_key i)); [|done]. simpl.
  by destruct (Item.from_data a).
Qed.

Lemma with_id_well_typed (n : Z) (it : Item.t) :
  well_typed (Item.with_id n it) = well_typed it.
Proof. reflexivity. Qed.

End Model.

Section Sequences.

Lemma counter_value_insert_key (st : store) (n : Z) (v : rvalue) :
  counter_value (<[redis_key n := v]> st) = counter_value st.
Proof.
  unfold counter_value. rewrite lookup_insert_ne; [done|].
  apply redis_key_ne_index.
Qed.

Lemma counter_value_insert_index (st : store) (n : Z) :
  counter_value (<[index_key := Counter n]> st) = n.
Proof. unfold counter_value. by rewrite lookup_insert_eq. Qed.

(** What a successful [save] does to the id and to the counter. *)
Lemma save_counter (it it' : Item.t) (st st' : store) :
  Item.save it st = (st', Ok it') ->
  (Item.id it = 0 ->
     Item.id it' = counter_value st + 1 /\ counter_value st' = Item.id it')
  /\ (Item.id it <> 0 ->
        Item.id it' = Item.id it /\ counter_value st' = counter_value st).
Proof.
  intros (_ & _ & _ & Hkeep & Hnew)%save_ok. split.
  - intros Hz. destruct (Hnew Hz) as [Hid ->]. split; [done|].
    by rewrite counter_value_insert_key, counter_value_insert_index.
  - intros Hnz. destruct (Hkeep Hnz) as [Hid ->]. split; [done|].
    by rewrite counter_value_insert_key.
Qed.

Lemma save_all_cons (it : Item.t) (rest : list Item.t) (st : store) :
  save_all (it :: rest) st =
  match Item.save it st with
  | (st', Ok it') =>
      ((save_all rest st').1,
       (if (Item.id it =? 0)%Z then Assigned (Item.id it') else Kept (Item.id it'))
         :: (save_all rest st').2)
  | (st', Raise _) => save_all rest st'
  end.
Proof.
  simpl. destruct (Item.save it st) as [st' [it'|e]]; [|done].
  by destruct (save_all rest st').
Qed.

(** The ids handed out during a run lie above the counter at its start
    and come out in increasing order. *)
Lemma save_all_assigned (items : list Item.t) (st : store) :
  Forall (fun n => counter_value st < n) (assigned_ids (save_all items st).2)
  /\ StronglySorted Z.lt (assigned_ids (save_all items st).2).
Proof.
  revert st. induction items as [|it rest IH]; intros st.
  { split; constructor. }
  rewrite save_all_cons.
  destruct (Item.save it st) as [st' [it'|e]] eqn:Hs.
  - destruct (IH st') as [Hgt Hsorted].
    destruct (save_counter _ _ _ _ Hs) as [Hnew Hkeep].
    destruct (Z.eqb_spec (Item.id it) 0) as [Hz|Hnz]; simpl.
    + destruct (Hnew Hz) as [Hid Hcv]. unfold assigned_ids. simpl.
      fold (assigned_ids (save_all rest st').2). rewrite Hcv in Hgt. split.
      * constructor; [lia|]. eapply Forall_impl; [exact Hgt|].
        simpl. intros. lia.
      * by constructor.
    + destruct (Hkeep Hnz) as [_ Hcv]. unfold assigned_ids. simpl.
      fold (assigned_ids (save_all rest st').2). by rewrite <- Hcv.
  - apply save_raise in Hs as ->. apply IH.
Qed.

Lemma strictly_sorted_NoDup (l : list Z) : StronglySorted Z.lt l -> NoDup l.
Proof.
  induction 1 as [|x l Hs IH Hall]; constructor; [|done].
  intros Hin. rewrite Forall_forall in Hall. specialize (Hall x Hin). lia.
Qed.

(** A run of saves leaves every key alone under which it wrote nothing. *)
Lemma save_all_other_key (items : list Item.t) (st : store) (i : Z) :
  i ∉ saved_id <$> (save_all items st).2 ->
  (save_all items st).1 !! redis_key i = st !! redis_key i.
Proof.
  revert st. induction items as [|it rest IH]; intros st; [done|].
  rewrite save_all_cons.
  destruct (Item.save it st) as [st' [it'|e]] eqn:Hs.
  - simpl. intros Hnotin.
    assert (i <> Item.id it') as Hne.
    { intros ->. apply Hnotin. destruct (Item.id it =? 0)%Z; simpl; left. }
    rewrite IH by (intros Hin; apply Hnotin; by right).
    apply save_ok in Hs as (_ & _ & _ & Hkeep & Hnew).
    assert (redis_key (Item.id it') <> redis_key i) as Hk
        by (intros Heq%redis_key_inj; done).
    destruct (decide (Item.id it = 0)) as [Hz|Hnz].
    + destruct (Hnew Hz) as [_ ->].
      rewrite lookup_insert_ne by done.
      rewrite lookup_insert_ne; [done|]. intros Heq. symmetry in Heq.
      by apply redis_key_ne_index in Heq.
    + destruct (Hkeep Hnz) as [Hid ->]. rewrite <- Hid.
      by rewrite lookup_insert_ne.
  - apply save_raise in Hs as ->. apply IH.
Qed.

End Sequences.

(** ** The record store *)

(** C1 (as amended).  For every item whose name is unset ([None]), [save]
    raises the validation error and leaves the keyspace exactly as it was:
    nothing is written and the counter is not advanced. *)
Theorem save_unset_name_fails (it : Item.t) (st : store) :
  Item.name it = PNone ->
  Item.save it st =
  (st, Raise (DataValidationError "name attribute is not set")).
Proof. apply save_unset. Qed.

Lemma save_unset_name_fails_witness :
  Item.save unnamed two_items =
  (two_items, Raise (DataValidationError "name attribute is not set")).
Proof. apply (save_unset_name_fails unnamed two_items). reflexivity. Defined.

(** C1, as stated, fails: an item whose name is the empty string is saved.
    The call returns normally, the item gets id 1 and its record is
    written under key [1]. *)
Lemma save_empty_name_succeeds :
  Item.name nameless = PStr ""
  /\ (Item.save nameless ∅).2 = Ok (Item.with_id 1 nameless)
  /\ (Item.save nameless ∅).1 !! redis_key 1
     = Some (pickle_dumps (Item.serialize (Item.with_id 1 nameless))).
Proof. split; [reflexivity|]. split; vm_compute; reflexivity. Qed.

(** C2 (as amended).  For every item whose name and price are strings and
    whose availability is a boolean, after [save] succeeds, [find] on the
    saved item's id returns an item with the same id, name, price and
    availability, and the name, price and availability are those the item
    had before the call. *)
Theorem find_after_save (it it' : Item.t) (st st' : store) :
  well_typed it = true ->
  Item.save it st = (st', Ok it') ->
  Item.find (Item.id it') st' = (st', Ok (Some it'))
  /\ Item.name it' = Item.name it
  /\ Item.price it' = Item.price it
  /\ Item.available it' = Item.available it.
Proof.
  intros Hwt (_ & Hit' & Hholds & _)%save_ok. split.
  - apply find_holds; [done|]. rewrite Hit'. by rewrite with_id_well_typed.
  - by rewrite Hit'.
Qed.

Lemma find_after_save_witness :
  Item.find 1 (Item.save fido ∅).1
  = ((Item.save fido ∅).1, Ok (Some fido1)).
Proof.
  apply (find_after_save fido fido1 ∅ (Item.save fido ∅).1); reflexivity.
Defined.

(** C2, as stated, fails: [Item(0, "fido")] has a name, so [save]
    succeeds, but its price is [None] and [find] on the new id raises the
    validation error instead of returning the item. *)
Lemma find_after_save_raises :
  Item.name priceless <> PNone
  /\ (Item.save priceless ∅).2 = Ok (Item.with_id 1 priceless)
  /\ (Item.find 1 (Item.save priceless ∅).1).2
     = Raise (DataValidationError "Invalid item data").
Proof. split; [discriminate|]. split; vm_compute; reflexivity. Qed.

(** C3.  A successful [save] takes the next value of the auto-increment
    counter as the id exactly when the item's id is 0 (the counter then
    holds that id), and otherwise keeps the id and the counter; over every
    sequence of saves, from every keyspace, the ids taken from the counter
    come out strictly increasing, hence pairwise distinct. *)
Theorem save_ids_unique_monotonic :
  (forall (it it' : Item.t) (st st' : store),
      Item.save it st = (st', Ok it') ->
      (Item.id it = 0 ->
         Item.id it' = counter_value st + 1 /\ counter_value st' = Item.id it')
      /\ (Item.id it <> 0 ->
            Item.id it' = Item.id it /\ counter_value st' = counter_value st))
  /\ (forall (items : list Item.t) (st : store),
        StronglySorted Z.lt (assigned_ids (save_all items st).2)
        /\ NoDup (assigned_ids (save_all items st).2)
        /\ Forall (fun n => counter_value st < n)
                  (assigned_ids (save_all items st).2)).
Proof.
  split; [apply save_counter|].
  intros items st. destruct (save_all_assigned items st) as [Hgt Hsorted].
  split; [done|]. split; [by apply strictly_sorted_NoDup|done].
Qed.

Lemma save_ids_unique_monotonic_witness :
  (Item.id fido1 = counter_value ∅ + 1
   /\ counter_value (Item.save fido ∅).1 = Item.id fido1)
  /\ assigned_ids (save_all [fido; fido1; unnamed; kitty] ∅).2 = [1; 2].
Proof.
  split.
  - apply (proj1 save_ids_unique_monotonic fido fido1 ∅ (Item.save fido ∅).1);
      reflexivity.
  - vm_compute. reflexivity.
Defined.

(** C6.  After [delete] of an item, [find] of its id returns none; [find]
    of an id under which the keyspace has no record returns none; and an
    id under which no save of a run wrote anything, starting from the
    flushed keyspace, is not found whatever other ids were saved (the
    lookup is by the exact key). *)
Theorem find_after_delete_is_none :
  (forall (it : Item.t) (st : store),
      (Item.delete it st).2 = Ok tt
      /\ Item.find (Item.id it) (Item.delete it st).1
         = ((Item.delete it st).1, Ok None))
  /\ (forall (i : Z) (st : store),
        st !! redis_key i = None -> Item.find i st = (st, Ok None))
  /\ (forall (items : list Item.t) (i : Z),
        i ∉ saved_id <$> (save_all items ∅).2 ->
        Item.find i (save_all items ∅).1 = ((save_all items ∅).1, Ok None))
  /\ (forall i j : Z, redis_key i = redis_key j -> i = j).
Proof.
  split; [|split; [|split]].
  - intros it st. split; [reflexivity|].
    apply find_absent. unfold Item.delete, Redis.delete. simpl.
    apply lookup_delete_eq.
  - apply find_absent.
  - intros items i Hi. apply find_absent.
    rewrite save_all_other_key by done. apply lookup_empty.
  - apply redis_key_inj.
Qed.

Lemma find_after_delete_is_none_witness :
  Item.find 2 (Item.delete kitty2 two_items).1
  = ((Item.delete kitty2 two_items).1, Ok None)
  /\ Item.find 11 two_items = (two_items, Ok None).
Proof.
  split.
  - apply (proj1 find_after_delete_is_none kitty2 two_items).
  - apply (proj1 (proj2 find_after_delete_is_none) 11 two_items).
    vm_compute. reflexivity.
Defined.

(** C10.  For every item and every dictionary that passes the schema,
    [deserialize] succeeds and sets name, price and availability to the
    dictionary's entries while the id stays as it was; on every other
    input (not a dictionary, or a dictionary failing the schema) it raises
    the validation error and the item is unchanged. *)
Theorem deserialize_frame (self : Item.t) :
  (forall d : dict,
      Item.validate d = true ->
      exists n p a,
        d !! "name" = Some n /\ d !! "price" = Some p
        /\ d !! "available" = Some a
        /\ Item.deserialize self (ODict d) = (Item.mk (Item.id self) n p a, Ok tt))
  /\ (forall data : pyobj,
        match data with
        | ODict d => Item.validate d = false
        | OVal _ => True
        end ->
        Item.deserialize self data
        = (self, Raise (DataValidationError "Invalid item data"))).
Proof.
  split.
  - intros d Hv.
    destruct (validate_fields d Hv) as (n & p & a & Hn & _ & Hp & _ & Ha & _).
    exists n, p, a. repeat (split; [done|]).
    unfold Item.deserialize, getitem. by rewrite Hv, Hn, Hp, Ha.
  - intros [d|v] Hbad; [|reflexivity].
    unfold Item.deserialize. by rewrite Hbad.
Qed.

Lemma deserialize_frame_witness :
  (exists n p a,
      kitty_data !! "name" = Some n /\ kitty_data !! "price" = Some p
      /\ kitty_data !! "available" = Some a
      /\ Item.deserialize fido1 (ODict kitty_data)
         = (Item.mk (Item.id fido1) n p a, Ok tt))
  /\ Item.deserialize fido1 (OVal (PStr "string data"))
     = (fido1, Raise (DataValidationError "Invalid item data")).
Proof.
  split.
  - apply (proj1 (deserialize_frame fido1) kitty_data). vm_compute. reflexivity.
  - apply (proj2 (deserialize_frame fido1) (OVal (PStr "string data"))). exact I.
Defined.

(** ** The HTTP facade *)

Section Facade.

Lemma append_assoc (a b c : string) : (a +:+ b) +:+ c = a +:+ (b +:+ c).
Proof.
  induction a as [|x a IH]; [done|].
  change (String x ((a +:+ b) +:+ c) = String x (a +:+ (b +:+ c))).
  by f_equal.
Qed.

Lemma not_available_msg_contains (i : Z) :
  contains "not available" (Server.not_available_msg i).
Proof.
  exists ("Item with id '" +:+ pretty i +:+ "' is "), ".".
  unfold Server.not_available_msg. by rewrite !append_assoc.
Qed.

Lemma well_typed_named (it : Item.t) :
  well_typed it = true -> Item.name it <> PNone.
Proof. unfold well_typed. by destruct (Item.name it). Qed.

Lemma well_typed_available (it : Item.t) :
  well_typed it = true -> exists b, Item.available it = PBool b.
Proof.
  unfold well_typed. rewrite !andb_true_iff. intros [_ Ha].
  destruct (Item.available it); try discriminate. eauto.
Qed.

Lemma purchase_absent (req : Server.Request) (i : Z) (st : store) :
  st !! redis_key i = None ->
  Server.purchase_items req i st =
  (st, Raise (HTTPException 404 (Server.not_found_msg i))).
Proof.
  intros Hk. unfold Server.purchase_items. run_M.
  by rewrite (find_absent _ _ Hk).
Qed.

Lemma purchase_unavailable (req : Server.Request) (it : Item.t) (st : store) :
  holds st it -> well_typed it = true -> Item.available it = PBool false ->
  Server.purchase_items req (Item.id it) st =
  (st, Raise (HTTPException 400 (Server.not_available_msg (Item.id it)))).
Proof.
  intros Hh Hwt Ha. unfold Server.purchase_items. run_M.
  rewrite (find_holds _ _ Hh Hwt), Ha. reflexivity.
Qed.

Lemma purchase_available (req : Server.Request) (it : Item.t) (st : store) :
  holds st it -> well_typed it = true -> Item.available it = PBool true ->
  Item.id it <> 0 ->
  let sold := Item.with_available (PBool false) it in
  Server.purchase_items req (Item.id it) st =
  (<[redis_key (Item.id it) := pickle_dumps (Item.serialize sold)]> st,
   Ok (Server.mkResponse 200 (Server.BJson (Item.serialize sold)) None)).
Proof.
  intros Hh Hwt Ha Hid sold. unfold Server.purchase_items. run_M.
  rewrite (find_holds _ _ Hh Hwt), Ha. simpl.
  fold sold. rewrite (save_keep sold); [done| |done].
  by apply well_typed_named in Hwt.
Qed.

Lemma delete_absent (req : Server.Request) (i : Z) (st : store) :
  st !! redis_key i = None ->
  Server.delete_items req i st =
  (st, Ok (Server.mkResponse 204 Server.BEmpty None)).
Proof.
  intros Hk. unfold Server.delete_items. run_M.
  by rewrite (find_absent _ _ Hk).
Qed.

Lemma delete_present (req : Server.Request) (it : Item.t) (st : store) :
  holds st it -> well_typed it = true ->
  Server.delete_items req (Item.id it) st =
  (delete (redis_key (Item.id it)) st,
   Ok (Server.mkResponse 204 Server.BEmpty None)).
Proof.
  intros Hh Hwt. unfold Server.delete_items. run_M.
  by rewrite (find_holds _ _ Hh Hwt).
Qed.

(** [PUT /items/{id}] stops at the content type check. *)
Lemma update_wrong_type (req : Server.Request) (i : Z) (st : store) (ct : string) :
  Server.headers req !! "Content-Type" = Some ct -> ct <> "application/json" ->
  Server.update_items req i st =
  (st, Raise (HTTPException 415 "Content-Type must be application/json")).
Proof.
  intros Hct Hne. unfold Server.update_items, Server.check_content_type,
    Server.header. rewrite Hct. run_M.
  destruct (String.eqb_spec ct "application/json") as [->|_]; done.
Qed.

Lemma update_no_type (req : Server.Request) (i : Z) (st : store) :
  Server.headers req !! "Content-Type" = None ->
  (Server.update_items req i st).1 = st
  /\ exists e, (Server.update_items req i st).2 = Raise e.
Proof.
  intros Hct. unfold Server.update_items, Server.check_content_type,
    Server.header. rewrite Hct. run_M. simpl. eauto.
Qed.

(** [POST /items] with a body that is neither a form nor JSON: the view
    hands [None] to [deserialize]. *)
Lemma create_wrong_type (req : Server.Request) (st : store) :
  Server.headers req !! "Content-Type" <> Some "application/x-www-form-urlencoded" ->
  Server.is_json req = false ->
  Server.create_items req st =
  (st, Raise (DataValidationError "Invalid item data")).
Proof.
  intros Hct Hj. unfold Server.create_items, Server.get_json.
  rewrite bool_decide_eq_false_2 by done. rewrite Hj. reflexivity.
Qed.

End Facade.

(** C7 (as amended).  [PUT /items/{id}] rejects a request whose
    Content-Type header is not [application/json] with 415, and a request
    without the header with an error, and [POST /items] rejects a request
    whose Content-Type is neither the form type nor JSON with 400; in each
    case the keyspace is left as it was. *)
Theorem content_type_enforced (req : Server.Request) (st : store) :
  (forall (i : Z) (ct : string),
      Server.headers req !! "Content-Type" = Some ct ->
      ct <> "application/json" ->
      (Server.update_items req i st).1 = st
      /\ (Server.update_items req i st).2
         = Raise (HTTPException 415 "Content-Type must be application/json")
      /\ Server.status_of (Server.update_items req i st).2 = 415)
  /\ (forall i : Z,
        Server.headers req !! "Content-Type" = None ->
        (Server.update_items req i st).1 = st
        /\ exists e, (Server.update_items req i st).2 = Raise e)
  /\ (Server.headers req !! "Content-Type"
      <> Some "application/x-www-form-urlencoded" ->
      Server.is_json req = false ->
      (Server.create_items req st).1 = st
      /\ (Server.create_items req st).2
         = Raise (DataValidationError "Invalid item data")
      /\ Server.status_of (Server.create_items req st).2 = 400).
Proof.
  split; [|split].
  - intros i ct Hct Hne. by rewrite (update_wrong_type req i st ct Hct Hne).
  - intros i Hct. by apply update_no_type.
  - intros Hct Hj. by rewrite (create_wrong_type req st Hct Hj).
Qed.

Lemma content_type_enforced_witness :
  ((Server.update_items text_request 2 two_items).1 = two_items
   /\ (Server.update_items text_request 2 two_items).2
      = Raise (HTTPException 415 "Content-Type must be application/json")
   /\ Server.status_of (Server.update_items text_request 2 two_items).2 = 415)
  /\ ((Server.create_items text_request two_items).1 = two_items
      /\ (Server.create_items text_request two_items).2
         = Raise (DataValidationError "Invalid item data")
      /\ Server.status_of (Server.create_items text_request two_items).2 = 400).
Proof.
  split.
  - apply (proj1 (content_type_enforced text_request two_items) 2 "text/plain");
      [vm_compute; reflexivity|discriminate].
  - apply (proj2 (proj2 (content_type_enforced text_request two_items)));
      [vm_compute; discriminate|reflexivity].
Defined.

(** C7, as stated, fails for the purchase route, which never looks at the
    Content-Type: a [text/plain] request purchases kitty, is answered 200
    and changes the stored item. *)
Lemma purchase_ignores_content_type :
  Server.headers text_request !! "Content-Type" = Some "text/plain"
  /\ Server.status_of (Server.purchase_items text_request 2 two_items).2 = 200
  /\ (Item.find 2 two_items).2 = Ok (Some kitty2)
  /\ (Item.find 2 (Server.purchase_items text_request 2 two_items).1).2
     = Ok (Some sold_kitty2).
Proof. repeat split; vm_compute; reflexivity. Qed.

(** ** Scans of the keyspace *)

Section Scan.

Lemma all_loop_spec (st : store) (l : list (string * rvalue)) (acc : list Item.t) :
  (forall k v, (k, v) ∈ l -> st !! k = Some v) ->
  records_valid st ->
  exists items,
    Item.all_loop (l.*1) acc st = (st, Ok (acc ++ items)%list)
    /\ Forall2 (fun kv it => kv.2 = pickle_dumps (Item.serialize it))
               (filter (fun kv => kv.1 <> index_key) l) items.
Proof.
  intros Hl Hvalid. revert acc.
  induction l as [|[k v] l IH]; intros acc.
  { exists []. split; [by rewrite app_nil_r|constructor]. }
  assert (forall k' v', (k', v') ∈ l -> st !! k' = Some v') as Hl'.
  { intros k' v' Hin. apply Hl. by right. }
  assert (st !! k = Some v) as Hk by (apply Hl; left).
  cbn [fmap list_fmap fst Item.all_loop].
  destruct (decide (k <> index_key)) as [Hne|Heq].
  - rewrite bool_decide_eq_true_2 by done.
    destruct (Hvalid k v Hk Hne) as (it & -> & Hwt).
    destruct (IH Hl' (acc ++ [it])%list) as (items & Hrun & Hall).
    exists (it :: items). split.
    + run_M. rewrite Hk. simpl.
      rewrite from_data_serialize, Hwt.
      change (list_fmap _ _ fst l) with (l.*1).
      rewrite Hrun. by rewrite <- app_assoc.
    + rewrite filter_cons_True by done. by constructor.
  - rewrite bool_decide_eq_false_2 by done.
    destruct (IH Hl' acc) as (items & Hrun & Hall).
    exists items. split; [exact Hrun|].
    by rewrite filter_cons_False.
Qed.

End Scan.

(** C8 (as amended).  For every keyspace whose records, the counter apart,
    are pickled dictionaries of items that pass the schema, [all] returns,
    without changing the keyspace, one item per key other than the counter
    key, in the order of the keys, and each item's fields are those of the
    record stored under its key; nothing is returned for the counter key. *)
Theorem all_returns_every_record (st : store) :
  records_valid st ->
  exists items,
    Item.all st = (st, Ok items)
    /\ Forall2 (fun kv it => kv.2 = pickle_dumps (Item.serialize it))
               (filter (fun kv => kv.1 <> index_key) (map_to_list st)) items
    /\ length items = size (delete index_key st).
Proof.
  intros Hvalid.
  destruct (all_loop_spec st (map_to_list st) []) as (items & Hrun & Hall);
    [by intros k v ?%elem_of_map_to_list|done|].
  exists items. split; [exact Hrun|]. split; [exact Hall|].
  rewrite <- (Forall2_length _ _ _ Hall).
  rewrite <- length_map_to_list.
  apply Permutation_length, NoDup_Permutation.
  - apply NoDup_filter, NoDup_map_to_list.
  - apply NoDup_map_to_list.
  - intros [k v]. rewrite list_elem_of_filter, !elem_of_map_to_list. simpl.
    rewrite lookup_delete_Some. intuition congruence.
Qed.

Lemma all_returns_every_record_witness :
  exists items,
    Item.all two_items = (two_items, Ok items)
    /\ Forall2 (fun kv it => kv.2 = pickle_dumps (Item.serialize it))
               (filter (fun kv => kv.1 <> index_key) (map_to_list two_items))
               items
    /\ length items = size (delete index_key two_items).
Proof.
  apply (all_returns_every_record two_items).
  intros k v Hkv Hne.
  assert ((k, v) ∈ map_to_list two_items) as Hin
      by (by apply elem_of_map_to_list).
  vm_compute in Hin.
  repeat (apply elem_of_cons in Hin as [[= -> ->]|Hin]);
    [done|exists fido1|exists kitty2|by apply elem_of_nil in Hin];
    split; vm_compute; reflexivity.
Defined.

(** C8, as stated, fails: after [Item(0, "fido").save()] the keyspace has
    one record, whose price is [None], and [all] raises the validation
    error instead of returning an item for it. *)
Lemma all_raises_on_saved_item :
  (Item.save priceless ∅).2 = Ok (Item.with_id 1 priceless)
  /\ (Item.all (Item.save priceless ∅).1).2
     = Raise (DataValidationError "Invalid item data").
Proof. split; vm_compute; reflexivity. Qed.

Section Query.

(** The query scan visits the records like [all] does and keeps those
    that pass the test. *)
Lemma find_by_loop_spec (st : store) (attribute : string) (value : pyval)
      (l : list (string * rvalue)) (acc acc' : list Item.t) :
  (forall k v, (k, v) ∈ l -> st !! k = Some v) ->
  records_valid st ->
  (forall it, is_Some (Item.serialize it !! attribute)) ->
  exists items,
    Item.all_loop (l.*1) acc st = (st, Ok (acc ++ items)%list)
    /\ Item.find_by_loop attribute (Item.fold_case value) (l.*1) acc' st
       = (st, Ok (acc' ++ filter (fun it => matches attribute value it) items)%list).
Proof.
  intros Hl Hvalid Hattr. revert acc acc'.
  induction l as [|[k v] l IH]; intros acc acc'.
  { exists []. by rewrite filter_nil, !app_nil_r. }
  assert (forall k' v', (k', v') ∈ l -> st !! k' = Some v') as Hl'.
  { intros k' v' Hin. apply Hl. by right. }
  assert (st !! k = Some v) as Hk by (apply Hl; left).
  cbn [fmap list_fmap fst Item.all_loop Item.find_by_loop].
  change (list_fmap _ _ fst l) with (l.*1).
  destruct (decide (k <> index_key)) as [Hne|Heq].
  - rewrite !bool_decide_eq_true_2 by done.
    destruct (Hvalid k v Hk Hne) as (it & -> & Hwt).
    destruct (Hattr it) as [w Hw].
    assert (matches attribute value it
            = py_eq (Item.fold_case w) (Item.fold_case value)) as Hm
        by (unfold matches; by rewrite Hw).
    run_M. rewrite Hk. simpl. unfold getitem. rewrite Hw.
    rewrite from_data_serialize, Hwt. rewrite <- Hm.
    destruct (matches attribute value it) eqn:Hmatch.
    + destruct (IH Hl' (acc ++ [it])%list (acc' ++ [it])%list)
        as (items & Hall & Hby).
      exists (it :: items). rewrite Hall, Hby.
      rewrite filter_cons_True by (by rewrite Hmatch).
      by rewrite <- !app_assoc.
    + destruct (IH Hl' (acc ++ [it])%list acc') as (items & Hall & Hby).
      exists (it :: items). rewrite Hall, Hby.
      rewrite filter_cons_False by (rewrite Hmatch; intros []).
      by rewrite <- !app_assoc.
  - rewrite !bool_decide_eq_false_2 by done. apply IH, Hl'.
Qed.

(** On a keyspace of valid records, a query returns the items of [all]
    that pass the test, in the same order. *)
Lemma find_by_filters_all (st : store) (attribute : string) (value : pyval) :
  records_valid st ->
  (forall it, is_Some (Item.serialize it !! attribute)) ->
  exists items,
    Item.all st = (st, Ok items)
    /\ Item.find_by attribute value st
       = (st, Ok (filter (fun it => matches attribute value it) items)).
Proof.
  intros Hvalid Hattr.
  destruct (find_by_loop_spec st attribute value (map_to_list st) [] [])
    as (items & Hall & Hby);
    [by intros k v ?%elem_of_map_to_list|done..|].
  exists items. split; [exact Hall|exact Hby].
Qed.

(** Between two [str] values the test compares up to ASCII case. *)
Lemma matches_name_str (it : Item.t) (s q : string) :
  Item.name it = PStr s ->
  matches "name" (PStr q) it = true <-> lower s = lower q.
Proof.
  intros Hn. unfold matches. rewrite serialize_name, Hn. simpl.
  apply String.eqb_eq.
Qed.

(** Between two [unicode] values nothing is folded: the test is plain
    equality. *)
Lemma matches_name_unicode (it : Item.t) (s q : string) :
  Item.name it = PUnicode s ->
  matches "name" (PUnicode q) it = true <-> s = q.
Proof.
  intros Hn. unfold matches. rewrite serialize_name, Hn. simpl.
  apply String.eqb_eq.
Qed.

End Query.

(** C5 fails on the code.  After [POST /items] stored an item named
    [Fido], whose strings the JSON decoder delivers as [unicode], the query
    [name=fido], whose value the framework also delivers as [unicode],
    finds nothing: neither side is a [str], so neither is lower-cased.  On
    the [str] literals of the model tests the same query does match.
    Likewise [GET /items?name=FIDO] lists nothing although the sample item
    fido is stored: the stored [str] is lower-cased, the [unicode] query
    value is not. *)
Theorem find_by_name_misses_unicode :
  (Item.find 1 posted_Fido).2
  = Ok (Some (Item.mk 1 (PUnicode "Fido") (PUnicode "dog") (PBool true)))
  /\ (Item.find_by_name (PUnicode "fido") posted_Fido).2 = Ok []
  /\ lower "Fido" = lower "fido"
  /\ (Item.find_by_name (PStr "fido") saved_Fido).2
     = Ok [Item.mk 1 (PStr "Fido") (PStr "DOG") (PBool true)]
  /\ (Item.find 1 two_items).2 = Ok (Some fido1)
  /\ lower "FIDO" = lower "fido"
  /\ (Server.list_items query_FIDO two_items).2
     = Ok (Server.mkResponse 200 (Server.BJsonList []) None).
Proof. repeat split; vm_compute; reflexivity. Qed.

(** ** The keyspaces that the routes build *)

Section Invariant.

Lemma all_loop_store (ks : list string) (acc : list Item.t) (st : store) :
  (Item.all_loop ks acc st).1 = st.
Proof.
  revert acc. induction ks as [|k ks IH]; intros acc; [done|].
  cbn [Item.all_loop]. destruct (bool_decide (k <> index_key)); [|apply IH].
  run_M. destruct (pickle_loads (st !! k)) as [d|e]; [|done]. simpl.
  destruct (Item.from_data d) as [it|e]; [apply IH|done].
Qed.

Lemma find_by_loop_store (attribute : string) (c : pyval) (ks : list string)
      (acc : list Item.t) (st : store) :
  (Item.find_by_loop attribute c ks acc st).1 = st.
Proof.
  revert acc. induction ks as [|k ks IH]; intros acc; [done|].
  cbn [Item.find_by_loop]. destruct (bool_decide (k <> index_key)); [|apply IH].
  run_M. destruct (pickle_loads (st !! k)) as [d|e]; [|done]. simpl.
  destruct (getitem d attribute) as [v|e]; [|done]. simpl.
  destruct (py_eq (Item.fold_case v) c); [|apply IH].
  destruct (Item.from_data d) as [it|e]; [apply IH|done].
Qed.

(** An item that came through [deserialize] passes the schema. *)
Lemma deserialized_ok (self it : Item.t) (data : pyobj) :
  Item.deserialized self data = Ok it ->
  Item.id it = Item.id self /\ well_typed it = true.
Proof.
  unfold Item.deserialized, Item.deserialize.
  destruct data as [d|v]; [|discriminate].
  destruct (Item.validate d) eqn:Hv; [|discriminate].
  destruct (validate_fields d Hv) as (n & p & a & Hn & Hnt & Hp & Hpt & Ha & Hat).
  unfold getitem. rewrite Hn, Hp, Ha. intros [= <-].
  split; [done|]. unfold well_typed. simpl. by rewrite Hnt, Hpt, Hat.
Qed.

Lemma from_data_ok (d : dict) (it : Item.t) :
  Item.from_data d = Ok it -> well_typed it = true.
Proof.
  unfold Item.from_data.
  destruct (getitem d "id") as [v|e]; [|discriminate].
  destruct (Item.init v PNone PNone (PBool true)) as [self|e]; [|discriminate].
  intros H. by apply deserialized_ok in H as [_ ?].
Qed.

Lemma find_ok (i : Z) (st st' : store) (it : Item.t) :
  Item.find i st = (st', Ok (Some it)) -> st' = st /\ well_typed it = true.
Proof.
  intros Hf. split.
  { by rewrite <- (find_store i st), Hf. }
  destruct (st !! redis_key i) as [[n|d]|] eqn:Hk.
  - unfold Item.find in Hf. run_M. rewrite Hk in Hf.
    rewrite bool_decide_eq_true_2 in Hf by eauto.
    rewrite Hk in Hf. discriminate.
  - rewrite (find_record _ _ _ Hk) in Hf.
    destruct (Item.from_data d) as [it'|e] eqn:Hd; [|discriminate].
    injection Hf as _ <-. by apply from_data_ok in Hd.
  - rewrite (find_absent _ _ Hk) in Hf. discriminate.
Qed.

Lemma store_ok_empty : store_ok ∅.
Proof. split; [done|]. intros k v Hk. by rewrite lookup_empty in Hk. Qed.

(** Saving an item that passes the schema keeps the shape. *)
Lemma save_store_ok (it : Item.t) (st : store) :
  store_ok st -> well_typed it = true -> store_ok (Item.save it st).1.
Proof.
  intros [Hcv Hrec] Hwt.
  destruct (Item.save it st) as [st' [it'|e]] eqn:Hs;
    [|apply save_raise in Hs as ->; by split].
  apply save_ok in Hs as (_ & Hit' & _ & Hkeep & Hnew). simpl.
  destruct (decide (Item.id it = 0)) as [Hz|Hnz].
  - destruct (Hnew Hz) as [Hid ->]. split.
    { rewrite counter_value_insert_key, counter_value_insert_index. lia. }
    intros k v Hk Hne. apply lookup_insert_Some in Hk as [[<- <-]|[Hne' Hk]].
    + exists it'. rewrite Hit', with_id_well_typed.
      repeat (split; [done|]). simpl. lia.
    + rewrite lookup_insert_ne in Hk by done. by apply Hrec.
  - destruct (Hkeep Hnz) as [Hid ->]. split.
    { by rewrite counter_value_insert_key. }
    intros k v Hk Hne. apply lookup_insert_Some in Hk as [[<- <-]|[Hne' Hk]].
    + by exists it.
    + by apply Hrec.
Qed.

Lemma delete_store_ok (k : string) (st : store) :
  k <> index_key -> store_ok st -> store_ok (delete k st).
Proof.
  intros Hne [Hcv Hrec]. split.
  - unfold counter_value. by rewrite lookup_delete_ne.
  - intros k' v [_ Hk]%lookup_delete_Some. by apply Hrec.
Qed.

(** Under the shape, an id is either free or holds an item of that id. *)
Lemma store_ok_lookup (st : store) (i : Z) :
  store_ok st ->
  st !! redis_key i = None
  \/ exists it, Item.id it = i /\ i <> 0 /\ holds st it /\ well_typed it = true.
Proof.
  intros [_ Hrec]. destruct (st !! redis_key i) as [v|] eqn:Hk; [right|by left].
  destruct (Hrec _ _ Hk (redis_key_ne_index i)) as (it & -> & Hwt & Hkey & Hid).
  apply redis_key_inj in Hkey as ->. exists it. unfold holds. done.
Qed.

Lemma create_items_store_ok (req : Server.Request) (st : store) :
  store_ok st -> store_ok (Server.create_items req st).1.
Proof.
  intros Hok. unfold Server.create_items.
  assert (forall data : pyobj,
             store_ok ((item ← lift (Item.init (PInt 0) PNone PNone (PBool true));
                        item ← Server.deserialize_in_view item data;
                        item ← Item.save item;
                        mret (Server.mkResponse Server.HTTP_201_CREATED
                                (Server.BJson (Item.serialize item))
                                (Some ("/items/" +:+ pretty (Item.id item))))) st).1)
    as Hrest.
  { intros data. unfold Server.deserialize_in_view. run_M. simpl.
    destruct (Item.deserialized _ data) as [item|e] eqn:Hd; [|done].
    apply deserialized_ok in Hd as [_ Hwt].
    pose proof (save_store_ok item st Hok Hwt) as Hsave.
    by destruct (Item.save item st) as [st' [item'|e]]. }
  unfold mbind at 1. unfold M_bind at 1.
  destruct (bool_decide _).
  - unfold Server.form_field. run_M.
    destruct (Server.form req !! "name"); [|done].
    destruct (Server.form req !! "price"); [|done]. apply Hrest.
  - unfold Server.get_json, Server.abort. run_M.
    destruct (Server.is_json req); [|apply Hrest].
    destruct (Server.json req); [apply Hrest|done].
Qed.

Lemma update_items_store_ok (req : Server.Request) (i : Z) (st : store) :
  store_ok st -> store_ok (Server.update_items req i st).1.
Proof.
  intros Hok. unfold Server.update_items, Server.check_content_type,
    Server.header, Server.abort. run_M.
  destruct (Server.headers req !! "Content-Type") as [ct|]; [|done].
  destruct (String.eqb ct "application/json"); [|done].
  destruct (Item.find i st) as [st1 [[item|]|e]] eqn:Hf;
    pose proof (find_store i st) as Hst; rewrite Hf in Hst; simpl in Hst;
    subst st1; [|done..].
  apply find_ok in Hf as [_ Hwt].
  unfold Server.get_json, Server.abort, Server.deserialize_in_view. run_M.
  destruct (Server.is_json req).
  - destruct (Server.json req) as [o|]; [|done].
    destruct (Item.deserialized item o) as [item2|e] eqn:Hd; [|done].
    apply deserialized_ok in Hd as [_ Hwt2].
    pose proof (save_store_ok (Item.with_id i item2) st Hok Hwt2) as Hsave.
    by destruct (Item.save (Item.with_id i item2) st) as [st' [item'|e]].
  - destruct (Item.deserialized item (OVal PNone)) as [item2|e] eqn:Hd; [|done].
    apply deserialized_ok in Hd as [_ Hwt2].
    pose proof (save_store_ok (Item.with_id i item2) st Hok Hwt2) as Hsave.
    by destruct (Item.save (Item.with_id i item2) st) as [st' [item'|e]].
Qed.

Lemma delete_items_store_ok (req : Server.Request) (i : Z) (st : store) :
  store_ok st -> store_ok (Server.delete_items req i st).1.
Proof.
  intros Hok. unfold Server.delete_items, Item.delete. run_M.
  destruct (Item.find i st) as [st1 [[item|]|e]] eqn:Hf;
    pose proof (find_store i st) as Hst; rewrite Hf in Hst; simpl in Hst;
    subst st1; [|done..].
  simpl. apply delete_store_ok; [apply redis_key_ne_index|done].
Qed.

Lemma purchase_items_store_ok (req : Server.Request) (i : Z) (st : store) :
  store_ok st -> store_ok (Server.purchase_items req i st).1.
Proof.
  intros Hok. unfold Server.purchase_items, Server.abort. run_M.
  destruct (Item.find i st) as [st1 [[item|]|e]] eqn:Hf;
    pose proof (find_store i st) as Hst; rewrite Hf in Hst; simpl in Hst;
    subst st1; [|done..].
  apply find_ok in Hf as [_ Hwt].
  destruct (negb (py_truthy (Item.available item))); [done|].
  assert (well_typed (Item.with_available (PBool false) item) = true) as Hwt2.
  { unfold well_typed in *. rewrite !andb_true_iff in *. simpl. tauto. }
  pose proof (save_store_ok _ st Hok Hwt2) as Hsave.
  by destruct (Item.save (Item.with_available (PBool false) item) st)
    as [st' [item'|e]].
Qed.

Lemma list_items_store (req : Server.Request) (st : store) :
  (Server.list_items req st).1 = st.
Proof.
  unfold Server.list_items, Item.find_by_price, Item.find_by_name,
    Item.find_by, Item.all, Redis.keys. run_M.
  destruct (py_truthy (Server.arg req "price")).
  - match goal with
    | |- context [Item.find_by_loop ?a ?c ?ks ?acc st] =>
        pose proof (find_by_loop_store a c ks acc st) as H;
        destruct (Item.find_by_loop a c ks acc st) as [st1 [l|e]]
    end; by simpl in *.
  - destruct (py_truthy (Server.arg req "name")).
    + match goal with
      | |- context [Item.find_by_loop ?a ?c ?ks ?acc st] =>
          pose proof (find_by_loop_store a c ks acc st) as H;
          destruct (Item.find_by_loop a c ks acc st) as [st1 [l|e]]
      end; by simpl in *.
    + match goal with
      | |- context [Item.all_loop ?ks ?acc st] =>
          pose proof (all_loop_store ks acc st) as H;
          destruct (Item.all_loop ks acc st) as [st1 [l|e]]
      end; by simpl in *.
Qed.

Lemma get_items_store (req : Server.Request) (i : Z) (st : store) :
  (Server.get_items req i st).1 = st.
Proof.
  unfold Server.get_items. run_M.
  pose proof (find_store i st) as Hst.
  by destruct (Item.find i st) as [st1 [[item|]|e]].
Qed.

(** Every route keeps the shape. *)
Lemma dispatch_store_ok (c : Server.call) (req : Server.Request) (st : store) :
  store_ok st -> store_ok (Server.dispatch c req st).1.
Proof.
  intros Hok. destruct c as [|i| |i|i|i|]; simpl.
  - by rewrite list_items_store.
  - by rewrite get_items_store.
  - by apply create_items_store_ok.
  - by apply update_items_store_ok.
  - by apply delete_items_store_ok.
  - by apply purchase_items_store_ok.
  - apply store_ok_empty.
Qed.

(** Whatever requests were served since the store was flushed, it has the
    shape. *)
Lemma serve_store_ok (calls : list (Server.call * Server.Request)) (st : store) :
  store_ok st -> store_ok (serve calls st).
Proof.
  revert st. induction calls as [|[c req] rest IH]; intros st Hok; [done|].
  simpl. by apply IH, dispatch_store_ok.
Qed.

End Invariant.

(** ** The purchase and delete routes *)

(** C4.  [PUT /items/{id}/purchase] answers 404 when the keyspace has no
    record under the id, leaving the keyspace as it was; it answers 400
    with a message containing "not available" when the item stored under
    the id is unavailable, leaving the keyspace as it was; and for an
    available item it writes the item back with [available] false and
    answers 200 with that item, which [find] then returns.  On every
    keyspace that requests to the service have built from a flushed store,
    one of the three cases applies to every id. *)
Theorem purchase_outcomes (req : Server.Request) :
  (forall (st : store) (i : Z),
      st !! redis_key i = None ->
      Server.purchase_items req i st
      = (st, Raise (HTTPException 404 (Server.not_found_msg i)))
      /\ Server.status_of (Server.purchase_items req i st).2 = 404)
  /\ (forall (st : store) (it : Item.t),
        holds st it -> well_typed it = true ->
        Item.available it = PBool false ->
        Server.purchase_items req (Item.id it) st
        = (st, Raise (HTTPException 400 (Server.not_available_msg (Item.id it))))
        /\ Server.status_of (Server.purchase_items req (Item.id it) st).2 = 400
        /\ exists msg,
            Server.message_of (Server.purchase_items req (Item.id it) st).2
            = Some msg
            /\ contains "not available" msg)
  /\ (forall (st : store) (it : Item.t),
        holds st it -> well_typed it = true ->
        Item.available it = PBool true -> Item.id it <> 0 ->
        let sold := Item.with_available (PBool false) it in
        let st' := (Server.purchase_items req (Item.id it) st).1 in
        (Server.purchase_items req (Item.id it) st).2
        = Ok (Server.mkResponse 200 (Server.BJson (Item.serialize sold)) None)
        /\ st' = <[redis_key (Item.id it) := pickle_dumps (Item.serialize sold)]> st
        /\ Item.find (Item.id it) st' = (st', Ok (Some sold)))
  /\ (forall (calls : list (Server.call * Server.Request)) (i : Z),
        let st := serve calls ∅ in
        st !! redis_key i = None
        \/ exists it,
            Item.id it = i /\ i <> 0 /\ holds st it /\ well_typed it = true
            /\ (Item.available it = PBool false
                \/ Item.available it = PBool true)).
Proof.
  split; [|split; [|split]].
  - intros st i Hk. by rewrite (purchase_absent req i st Hk).
  - intros st it Hh Hwt Ha. rewrite (purchase_unavailable req it st Hh Hwt Ha).
    simpl. repeat (split; [done|]).
    eexists. split; [done|]. apply not_available_msg_contains.
  - intros st it Hh Hwt Ha Hid sold st'. subst st'.
    rewrite (purchase_available req it st Hh Hwt Ha Hid). simpl.
    fold sold. repeat (split; [done|]).
    apply (find_holds sold); [apply lookup_insert_eq|].
    unfold well_typed in *. rewrite !andb_true_iff in *. simpl. tauto.
  - intros calls i st.
    destruct (store_ok_lookup st i) as [Hk|(it & Hid & Hnz & Hh & Hwt)];
      [apply serve_store_ok, store_ok_empty|by left|right].
    exists it. repeat (split; [done|]).
    destruct (well_typed_available it Hwt) as [[|] Hb]; tauto.
Qed.

Lemma purchase_outcomes_witness :
  Server.status_of (Server.purchase_items text_request 5 two_items).2 = 404
  /\ Server.status_of (Server.purchase_items text_request 2 kitty_sold).2 = 400
  /\ (Server.purchase_items text_request 2 two_items).2
     = Ok (Server.mkResponse 200 (Server.BJson (Item.serialize sold_kitty2)) None).
Proof.
  split; [|split].
  - apply (proj1 (purchase_outcomes text_request) two_items 5).
    vm_compute. reflexivity.
  - apply (proj1 (proj2 (purchase_outcomes text_request)) kitty_sold sold_kitty2);
      vm_compute; reflexivity.
  - apply (proj1 (proj2 (proj2 (purchase_outcomes text_request))) two_items kitty2);
      [vm_compute; reflexivity..|discriminate].
Defined.

(** C9.  [DELETE /items/{id}] answers 204 both when the keyspace has no
    record under the id and when it holds an item there; the keyspace
    afterwards is the one before without the key of that id, so no other
    key is touched.  This covers every id on every keyspace that requests
    to the service have built from a flushed store. *)
Theorem delete_always_204 (req : Server.Request) (i : Z) :
  (forall st : store,
      st !! redis_key i = None
      \/ (exists it, Item.id it = i /\ holds st it /\ well_typed it = true) ->
      Server.delete_items req i st
      = (delete (redis_key i) st, Ok (Server.mkResponse 204 Server.BEmpty None))
      /\ Server.status_of (Server.delete_items req i st).2 = 204
      /\ (forall k, k <> redis_key i ->
                    (Server.delete_items req i st).1 !! k = st !! k))
  /\ (forall calls : list (Server.call * Server.Request),
        let st := serve calls ∅ in
        Server.delete_items req i st
        = (delete (redis_key i) st, Ok (Server.mkResponse 204 Server.BEmpty None))).
Proof.
  assert (forall st : store,
             st !! redis_key i = None
             \/ (exists it, Item.id it = i /\ holds st it /\ well_typed it = true) ->
             Server.delete_items req i st
             = (delete (redis_key i) st,
                Ok (Server.mkResponse 204 Server.BEmpty None))) as Hrun.
  { intros st [Hk|(it & <- & Hh & Hwt)].
    - rewrite (delete_absent req i st Hk). by rewrite delete_id.
    - by apply delete_present. }
  split.
  - intros st H. rewrite (Hrun st H). simpl. repeat (split; [done|]).
    intros k Hk. by rewrite lookup_delete_ne.
  - intros calls st. apply Hrun.
    destruct (store_ok_lookup st i) as [Hk|(it & Hid & _ & Hh & Hwt)];
      [apply serve_store_ok, store_ok_empty|by left|right; eauto].
Qed.

Lemma delete_always_204_witness :
  Server.status_of (Server.delete_items text_request 5 two_items).2 = 204
  /\ Server.status_of (Server.delete_items text_request 2 two_items).2 = 204.
Proof.
  split.
  - apply (proj1 (delete_always_204 text_request 5) two_items).
    left. vm_compute. reflexivity.
  - apply (proj1 (delete_always_204 text_request 2) two_items).
    right. exists kitty2. repeat split; vm_compute; reflexivity.
Defined.

(** * Further properties of the model and of the routes *)

Section Records.

Lemma serialize_inj (a b : Item.t) :
  Item.serialize a = Item.serialize b -> a = b.
Proof.
  intros H.
  pose proof (serialize_id a) as Hi. pose proof (serialize_name a) as Hn.
  pose proof (serialize_price a) as Hp.
  pose proof (serialize_available a) as Ha.
  rewrite H in Hi, Hn, Hp, Ha.
  rewrite serialize_id in Hi. rewrite serialize_name in Hn.
  rewrite serialize_price in Hp. rewrite serialize_available in Ha.
  destruct a, b. simpl in *. congruence.
Qed.

Lemma pickle_dumps_inj (a b : dict) : pickle_dumps a = pickle_dumps b -> a = b.
Proof.
  intros H.
  apply (f_equal (fun v => match v with Pickled d => d | Counter _ => a end)) in H.
  exact H.
Qed.

Lemma Forall2_elem_of_both {A B} (R : A -> B -> Prop) (l : list A) (k : list B) :
  Forall2 R l k ->
  (forall y, y ∈ k -> exists x, x ∈ l /\ R x y)
  /\ (forall x, x ∈ l -> exists y, y ∈ k /\ R x y).
Proof.
  induction 1 as [|x y l k HR _ [IHr IHl]].
  - split; intros ? Hin; by apply elem_of_nil in Hin.
  - split.
    + intros y' [->|Hin]%elem_of_cons.
      * exists x. split; [left|done].
      * destruct (IHr y' Hin) as (x' & ? & ?). exists x'. split; [by right|done].
    + intros x' [->|Hin]%elem_of_cons.
      * exists y. split; [left|done].
      * destruct (IHl x' Hin) as (y' & ? & ?). exists y'. split; [by right|done].
Qed.

(** On a keyspace of valid records, [all] returns exactly the items whose
    records are stored. *)
Lemma all_elem_of (st : store) :
  records_valid st ->
  exists items,
    Item.all st = (st, Ok items)
    /\ (forall it, it ∈ items <->
                   exists k, k <> index_key
                             /\ st !! k = Some (pickle_dumps (Item.serialize it))).
Proof.
  intros Hvalid.
  destruct (all_loop_spec st (map_to_list st) []) as (items & Hrun & Hall);
    [by intros k v ?%elem_of_map_to_list|done|].
  exists items. split; [exact Hrun|].
  destruct (Forall2_elem_of_both _ _ _ Hall) as [Hr Hl].
  intros it. split.
  - intros Hin. destruct (Hr it Hin) as ([k v] & Hkv & HR).
    apply list_elem_of_filter in Hkv as [Hne Hkv%elem_of_map_to_list].
    simpl in *. subst v. eauto.
  - intros (k & Hne & Hk).
    destruct (Hl (k, pickle_dumps (Item.serialize it))) as (it' & Hin & HR).
    { apply list_elem_of_filter. split; [done|]. by apply elem_of_map_to_list. }
    simpl in HR. apply pickle_dumps_inj, serialize_inj in HR as ->. done.
Qed.

End Records.

Section RecordStore.

Lemma store_ok_records_valid (st : store) : store_ok st -> records_valid st.
Proof.
  intros [_ Hrec] k v Hk Hne.
  destruct (Hrec k v Hk Hne) as (it & ? & ? & _). eauto.
Qed.

Lemma records_valid_insert (st : store) (k : string) (it : Item.t) :
  records_valid st -> well_typed it = true ->
  records_valid (<[k := pickle_dumps (Item.serialize it)]> st).
Proof.
  intros Hvalid Hwt k' v [[<- <-]|[_ Hk]]%lookup_insert_Some Hne; [eauto|].
  by eapply Hvalid.
Qed.

Lemma records_valid_counter (st : store) (n : Z) :
  records_valid st -> records_valid (<[index_key := Counter n]> st).
Proof.
  intros Hvalid k v [[<- <-]|[_ Hk]]%lookup_insert_Some Hne; [done|].
  by eapply Hvalid.
Qed.

Lemma save_records_valid (it it' : Item.t) (st st' : store) :
  records_valid st -> well_typed it = true ->
  Item.save it st = (st', Ok it') -> records_valid st'.
Proof.
  intros Hvalid Hwt (_ & Hit' & _ & Hkeep & Hnew)%save_ok.
  destruct (decide (Item.id it = 0)) as [Hz|Hnz].
  - destruct (Hnew Hz) as [_ ->].
    apply records_valid_insert; [by apply records_valid_counter|].
    by rewrite Hit', with_id_well_typed.
  - destruct (Hkeep Hnz) as [_ ->]. by apply records_valid_insert.
Qed.

(** One record that fails the schema makes the whole scan raise. *)
Lemma all_loop_raises (st : store) (k : string) (it : Item.t)
      (ks : list string) (acc : list Item.t) :
  k ∈ ks -> k <> index_key ->
  st !! k = Some (pickle_dumps (Item.serialize it)) ->
  well_typed it = false ->
  exists e, Item.all_loop ks acc st = (st, Raise e).
Proof.
  intros Hin Hne Hk Hwt. revert acc.
  induction ks as [|k0 ks IH]; intros acc; [by apply elem_of_nil in Hin|].
  cbn [Item.all_loop].
  destruct (decide (k0 = k)) as [->|Hne0].
  - rewrite bool_decide_eq_true_2 by done. run_M. rewrite Hk. simpl.
    rewrite from_data_serialize, Hwt. eauto.
  - assert (k ∈ ks) as Hin' by (apply elem_of_cons in Hin as [->|?]; done).
    destruct (bool_decide (k0 <> index_key)); [|by apply IH].
    run_M. destruct (pickle_loads (st !! k0)) as [d|e]; [|eauto]. simpl.
    destruct (Item.from_data d) as [it0|e]; [by apply IH|eauto].
Qed.

Lemma counter_value_delete_key (st : store) (i : Z) :
  counter_value (delete (redis_key i) st) = counter_value st.
Proof.
  unfold counter_value. rewrite lookup_delete_ne; [done|].
  apply redis_key_ne_index.
Qed.


End RecordStore.

(** X1.  [serialize] and [deserialize] are inverse on items that pass the
    schema: deserializing the dictionary of such an item into any object
    gives that item's name, price and availability under the object's own
    id, and [Item(data['id']).deserialize(data)] gives the item back.  The
    dictionary of an item that does not pass the schema is rejected and the
    object stays as it was. *)
Theorem serialize_deserialize_roundtrip (self it : Item.t) :
  (well_typed it = true ->
   Item.deserialize self (ODict (Item.serialize it))
   = (Item.with_id (Item.id self) it, Ok tt)
   /\ Item.from_data (Item.serialize it) = Ok it)
  /\ (well_typed it = false ->
      Item.deserialize self (ODict (Item.serialize it))
      = (self, Raise (DataValidationError "Invalid item data"))).
Proof.
  split; intros Hwt.
  - split; [|by rewrite from_data_serialize, Hwt].
    unfold Item.deserialize, getitem.
    rewrite validate_serialize, Hwt.
    by rewrite serialize_name, serialize_price, serialize_available.
  - unfold Item.deserialize. by rewrite validate_serialize, Hwt.
Qed.

Lemma serialize_deserialize_roundtrip_witness :
  Item.deserialize fido1 (ODict (Item.serialize kitty2))
  = (Item.with_id 1 kitty2, Ok tt)
  /\ Item.deserialize fido1 (ODict (Item.serialize priceless))
     = (fido1, Raise (DataValidationError "Invalid item data")).
Proof.
  split.
  - apply (proj1 (serialize_deserialize_roundtrip fido1 kitty2)). reflexivity.
  - apply (proj2 (serialize_deserialize_roundtrip fido1 priceless)). reflexivity.
Defined.

(** X2.  [save] does not check the schema: an item that has a name but
    whose name or price is not a string, or whose availability is not a
    boolean, is saved; afterwards [find] of its id raises the validation
    error and [all] raises as well, whatever else the keyspace holds. *)
Theorem ill_typed_item_saved_but_unreadable (it it' : Item.t) (st st' : store) :
  well_typed it = false ->
  Item.save it st = (st', Ok it') ->
  Item.find (Item.id it') st'
  = (st', Raise (DataValidationError "Invalid item data"))
  /\ exists e, Item.all st' = (st', Raise e).
Proof.
  intros Hwt (_ & Hit' & Hholds & _)%save_ok.
  assert (well_typed it' = false) as Hwt'
      by (by rewrite Hit', with_id_well_typed).
  split.
  - rewrite (find_record _ _ _ Hholds). by rewrite from_data_serialize, Hwt'.
  - unfold Item.all, Redis.keys. run_M.
    apply (all_loop_raises st' (redis_key (Item.id it')) it');
      [|apply redis_key_ne_index|exact Hholds|exact Hwt'].
    apply list_elem_of_fmap. eexists (_, _). split; [reflexivity|].
    apply elem_of_map_to_list. exact Hholds.
Qed.

Lemma ill_typed_item_saved_but_unreadable_witness :
  Item.find 3 (Item.save priceless two_items).1
  = ((Item.save priceless two_items).1,
     Raise (DataValidationError "Invalid item data"))
  /\ exists e, Item.all (Item.save priceless two_items).1
               = ((Item.save priceless two_items).1, Raise e).
Proof.
  apply (ill_typed_item_saved_but_unreadable priceless (Item.with_id 3 priceless)
           two_items (Item.save priceless two_items).1);
    vm_compute; reflexivity.
Defined.

(** X3.  On a keyspace of valid records, an item that passes the schema
    is listed by [all] right after its [save], and so is every item stored
    under another key. *)
Theorem saved_item_listed_by_all (it it' : Item.t) (st st' : store) :
  records_valid st -> well_typed it = true ->
  Item.save it st = (st', Ok it') ->
  exists items,
    Item.all st' = (st', Ok items)
    /\ it' ∈ items
    /\ (forall k it0,
           k <> index_key -> k <> redis_key (Item.id it') ->
           st !! k = Some (pickle_dumps (Item.serialize it0)) -> it0 ∈ items).
Proof.
  intros Hvalid Hwt Hs.
  pose proof (save_records_valid _ _ _ _ Hvalid Hwt Hs) as Hvalid'.
  destruct (all_elem_of st' Hvalid') as (items & Hall & Hin).
  exists items. split; [done|].
  apply save_ok in Hs as (_ & Hit' & Hholds & Hkeep & Hnew). split.
  - apply Hin. exists (redis_key (Item.id it')).
    split; [apply redis_key_ne_index|exact Hholds].
  - intros k it0 Hne Hnk Hk. apply Hin. exists k. split; [done|].
    destruct (decide (Item.id it = 0)) as [Hz|Hnz].
    + destruct (Hnew Hz) as [_ ->].
      by rewrite lookup_insert_ne, lookup_insert_ne.
    + destruct (Hkeep Hnz) as [Hid ->]. rewrite <- Hid.
      by rewrite lookup_insert_ne.
Qed.

Lemma saved_item_listed_by_all_witness :
  exists items,
    Item.all (Item.save kitty (Item.save fido ∅).1).1
    = ((Item.save kitty (Item.save fido ∅).1).1, Ok items)
    /\ kitty2 ∈ items
    /\ (forall k it0,
           k <> index_key -> k <> redis_key (Item.id kitty2) ->
           (Item.save fido ∅).1 !! k = Some (pickle_dumps (Item.serialize it0)) ->
           it0 ∈ items).
Proof.
  apply (saved_item_listed_by_all kitty kitty2 (Item.save fido ∅).1
           (Item.save kitty (Item.save fido ∅).1).1).
  - intros k v Hkv Hne.
    assert ((k, v) ∈ map_to_list (Item.save fido ∅).1) as Hin
        by (by apply elem_of_map_to_list).
    vm_compute in Hin.
    repeat (apply elem_of_cons in Hin as [[= -> ->]|Hin]);
      [done|exists fido1|by apply elem_of_nil in Hin].
    split; vm_compute; reflexivity.
  - reflexivity.
  - vm_compute. reflexivity.
Defined.

(** X4.  On a keyspace with the shape the routes keep, [delete] of an item
    removes from the result of [all] exactly the item with that id and
    leaves the counter alone. *)
Theorem deleted_item_not_listed (it : Item.t) (st : store) :
  store_ok st ->
  let st' := (Item.delete it st).1 in
  counter_value st' = counter_value st
  /\ exists items items',
      Item.all st = (st, Ok items)
      /\ Item.all st' = (st', Ok items')
      /\ (forall it0, it0 ∈ items' <-> it0 ∈ items /\ Item.id it0 <> Item.id it).
Proof.
  intros Hok st'. subst st'. unfold Item.delete, Redis.delete. simpl.
  split; [apply counter_value_delete_key|].
  pose proof (delete_store_ok (redis_key (Item.id it)) st
                (redis_key_ne_index _) Hok) as Hok'.
  destruct (all_elem_of st (store_ok_records_valid _ Hok)) as (items & Hall & Hin).
  destruct (all_elem_of _ (store_ok_records_valid _ Hok')) as (items' & Hall' & Hin').
  exists items, items'. repeat (split; [done|]).
  intros it0. rewrite Hin, Hin'. split.
  - intros (k & Hne & [Hnk Hk]%lookup_delete_Some). split; [eauto|].
    destruct Hok as [_ Hrec].
    destruct (Hrec k _ Hk Hne) as (it1 & Heq & _ & -> & _).
    apply pickle_dumps_inj, serialize_inj in Heq as ->. congruence.
  - intros [(k & Hne & Hk) Hid]. exists k. split; [done|].
    apply lookup_delete_Some. split; [|done].
    destruct Hok as [_ Hrec].
    destruct (Hrec k _ Hk Hne) as (it1 & Heq & _ & -> & _).
    apply pickle_dumps_inj, serialize_inj in Heq as ->.
    intros Heq%redis_key_inj. done.
Qed.

Lemma store_ok_two_items : store_ok two_items.
Proof.
  assert (two_items = (Item.save kitty (Item.save fido ∅).1).1) as ->
      by (vm_compute; reflexivity).
  apply save_store_ok; [|reflexivity].
  apply save_store_ok; [apply store_ok_empty|reflexivity].
Qed.

Lemma deleted_item_not_listed_witness :
  counter_value (Item.delete kitty2 two_items).1 = counter_value two_items
  /\ exists items items',
      Item.all two_items = (two_items, Ok items)
      /\ Item.all (Item.delete kitty2 two_items).1
         = ((Item.delete kitty2 two_items).1, Ok items')
      /\ (forall it0, it0 ∈ items' <-> it0 ∈ items /\ Item.id it0 <> Item.id kitty2).
Proof. apply (deleted_item_not_listed kitty2 two_items store_ok_two_items). Defined.

(** X5.  [remove_all] flushes the records and the counter alike: after
    it, from any keyspace, [all] returns the empty list, no id is found and
    the next item saved without an id gets id 1 again. *)
Theorem remove_all_restarts_ids (st : store) :
  Item.remove_all st = (∅, Ok tt)
  /\ Item.all (Item.remove_all st).1 = (∅, Ok [])
  /\ (forall i, Item.find i (Item.remove_all st).1 = (∅, Ok None))
  /\ (forall it,
         Item.name it <> PNone -> Item.id it = 0 ->
         Item.save it (Item.remove_all st).1
         = (<[redis_key 1 := pickle_dumps (Item.serialize (Item.with_id 1 it))]>
              (<[index_key := Counter 1]> ∅),
            Ok (Item.with_id 1 it))).
Proof.
  split; [reflexivity|]. split; [|split].
  - unfold Item.remove_all, Redis.flushall, Item.all, Redis.keys. run_M. simpl.
    by rewrite map_to_list_empty.
  - intros i. apply find_absent. apply lookup_empty.
  - intros it Hn Hz. simpl. rewrite (save_new _ _ Hn Hz).
    rewrite incr_spec, lookup_empty. reflexivity.
Qed.

Lemma remove_all_restarts_ids_witness :
  Item.save kitty (Item.remove_all two_items).1
  = (<[redis_key 1 := pickle_dumps (Item.serialize (Item.with_id 1 kitty))]>
       (<[index_key := Counter 1]> ∅),
     Ok (Item.with_id 1 kitty)).
Proof.
  apply (proj2 (proj2 (proj2 (remove_all_restarts_ids two_items))) kitty);
    [discriminate|reflexivity].
Defined.


Section Queries.

Lemma all_items_well_typed (st : store) (items : list Item.t) (it : Item.t) :
  records_valid st -> Item.all st = (st, Ok items) -> it ∈ items ->
  well_typed it = true.
Proof.
  intros Hvalid Hall Hin.
  destruct (all_elem_of st Hvalid) as (items' & Hall' & Hchar).
  rewrite Hall in Hall'. injection Hall' as <-.
  apply Hchar in Hin as (k & Hne & Hk).
  destruct (Hvalid k _ Hk Hne) as (it' & Heq & Hwt).
  by apply pickle_dumps_inj, serialize_inj in Heq as ->.
Qed.

Lemma matches_price_str (it : Item.t) (s q : string) :
  Item.price it = PStr s ->
  matches "price" (PStr q) it = true <-> lower s = lower q.
Proof.
  intros Hp. unfold matches. rewrite serialize_price, Hp. simpl.
  apply String.eqb_eq.
Qed.

Lemma matches_available_bool (it : Item.t) (b : bool) :
  well_typed it = true ->
  matches "available" (PBool b) it = true <-> Item.available it = PBool b.
Proof.
  intros (b' & Hb)%well_typed_available.
  unfold matches. rewrite serialize_available, Hb. simpl.
  destruct b', b; simpl; split; congruence.
Qed.

End Queries.

(** X7.  Between [str] values the queries by name and by price compare
    up to ASCII case: on a keyspace of valid records, [find_by_name] and
    [find_by_price] with a [str] argument return, in the order of [all],
    the items of [all] that pass the test, and an item whose name (price)
    is a [str] passes exactly when it equals the argument after
    lower-casing both. *)
Theorem find_by_str_ignores_case (st : store) (q : string) :
  records_valid st ->
  exists items by_name by_price,
    Item.all st = (st, Ok items)
    /\ Item.find_by_name (PStr q) st = (st, Ok by_name)
    /\ Item.find_by_price (PStr q) st = (st, Ok by_price)
    /\ sublist by_name items /\ sublist by_price items
    /\ (forall it s, Item.name it = PStr s ->
                     (it ∈ by_name <-> it ∈ items /\ lower s = lower q))
    /\ (forall it s, Item.price it = PStr s ->
                     (it ∈ by_price <-> it ∈ items /\ lower s = lower q)).
Proof.
  intros Hvalid.
  destruct (find_by_filters_all st "name" (PStr q) Hvalid) as (items & Hall & Hn).
  { intros it. rewrite serialize_name. eauto. }
  destruct (find_by_filters_all st "price" (PStr q) Hvalid) as (items' & Hall' & Hp).
  { intros it. rewrite serialize_price. eauto. }
  rewrite Hall in Hall'. injection Hall' as <-.
  eexists items, _, _. split; [done|]. split; [exact Hn|]. split; [exact Hp|].
  split; [apply sublist_filter|]. split; [apply sublist_filter|]. split.
  - intros it s Hs. rewrite list_elem_of_filter.
    rewrite <- (matches_name_str it s q Hs).
    destruct (matches "name" (PStr q) it); simpl; intuition congruence.
  - intros it s Hs. rewrite list_elem_of_filter.
    rewrite <- (matches_price_str it s q Hs).
    destruct (matches "price" (PStr q) it); simpl; intuition congruence.
Qed.

Lemma find_by_str_ignores_case_witness :
  exists items by_name by_price,
    Item.all saved_Fido = (saved_Fido, Ok items)
    /\ Item.find_by_name (PStr "FIDO") saved_Fido = (saved_Fido, Ok by_name)
    /\ Item.find_by_price (PStr "FIDO") saved_Fido = (saved_Fido, Ok by_price)
    /\ sublist by_name items /\ sublist by_price items
    /\ (forall it s, Item.name it = PStr s ->
                     (it ∈ by_name <-> it ∈ items /\ lower s = lower "FIDO"))
    /\ (forall it s, Item.price it = PStr s ->
                     (it ∈ by_price <-> it ∈ items /\ lower s = lower "FIDO")).
Proof.
  apply (find_by_str_ignores_case saved_Fido "FIDO").
  intros k v Hkv Hne.
  assert ((k, v) ∈ map_to_list saved_Fido) as Hin
      by (by apply elem_of_map_to_list).
  vm_compute in Hin.
  repeat (apply elem_of_cons in Hin as [[= -> ->]|Hin]);
    [done| |by apply elem_of_nil in Hin].
  exists (Item.mk 1 (PStr "Fido") (PStr "DOG") (PBool true)).
  split; vm_compute; reflexivity.
Defined.

(** X8.  On a keyspace of valid records, [find_by_availability] with a
    boolean returns exactly the items of [all] whose availability is that
    boolean. *)
Theorem find_by_availability_exact (st : store) (b : bool) :
  records_valid st ->
  exists items found,
    Item.all st = (st, Ok items)
    /\ Item.find_by_availability (PBool b) st = (st, Ok found)
    /\ sublist found items
    /\ (forall it, it ∈ found <-> it ∈ items /\ Item.available it = PBool b).
Proof.
  intros Hvalid.
  destruct (find_by_filters_all st "available" (PBool b) Hvalid)
    as (items & Hall & Hby).
  { intros it. rewrite serialize_available. eauto. }
  eexists items, _. split; [done|]. split; [exact Hby|].
  split; [apply sublist_filter|].
  intros it. rewrite list_elem_of_filter. split.
  - intros [Hm Hin]. split; [done|].
    apply matches_available_bool; [by eapply all_items_well_typed|].
    by destruct (matches "available" (PBool b) it).
  - intros [Hin Ha]. split; [|done].
    apply (matches_available_bool it b) in Ha as ->; [done|].
    by eapply all_items_well_typed.
Qed.

Lemma find_by_availability_exact_witness :
  exists items found,
    Item.all kitty_sold = (kitty_sold, Ok items)
    /\ Item.find_by_availability (PBool true) kitty_sold = (kitty_sold, Ok found)
    /\ sublist found items
    /\ (forall it, it ∈ found <-> it ∈ items /\ Item.available it = PBool true).
Proof.
  apply (find_by_availability_exact kitty_sold true).
  intros k v Hkv Hne.
  assert ((k, v) ∈ map_to_list kitty_sold) as Hin
      by (by apply elem_of_map_to_list).
  vm_compute in Hin.
  repeat (apply elem_of_cons in Hin as [[= -> ->]|Hin]);
    [done|exists fido1|exists sold_kitty2|by apply elem_of_nil in Hin];
    split; vm_compute; reflexivity.
Defined.

(** X9.  [deserialize] accepts a dictionary exactly when it has a name and
    a price that are strings and an availability that is a boolean, its id,
    if any, is an integer, and it has no other key; in particular a missing
    or [None] field and an unknown key are rejected. *)
Theorem deserialize_accepts_iff (self : Item.t) (d : dict) :
  (Item.deserialize self (ODict d)).2 = Ok tt <->
  (exists n p a,
      d !! "name" = Some n /\ is_text n = true
      /\ d !! "price" = Some p /\ is_text p = true
      /\ d !! "available" = Some a /\ is_boolean a = true)
  /\ match d !! "id" with
     | Some v => has_type TInteger v = true
     | None => True
     end
  /\ (forall k, is_Some (d !! k) -> k ∈ ["id"; "name"; "price"; "available"]).
Proof.
  assert ((Item.deserialize self (ODict d)).2 = Ok tt <-> Item.validate d = true)
    as ->.
  { unfold Item.deserialize. destruct (Item.validate d) eqn:Hv.
    - destruct (validate_fields d Hv) as (n & p & a & Hn & _ & Hp & _ & Ha & _).
      unfold getitem. by rewrite Hn, Hp, Ha.
    - simpl. split; discriminate. }
  split.
  - intros Hv. split; [by apply validate_fields|].
    apply validate_spec in Hv as [Hall _]. split.
    + destruct (d !! "id") as [v|] eqn:Hid; [|done].
      destruct (Hall _ _ Hid) as (r & [= <-] & Hty). exact Hty.
    + intros k [v Hk]. destruct (Hall _ _ Hk) as (r & Hr & _).
      apply schema_lookup_Some in Hr as [[-> _]|[[-> _]|[[-> _]|[-> _]]]];
        set_solver.
  - intros [(n & p & a & Hn & Hnt & Hp & Hpt & Ha & Hat) [Hid Hkeys]].
    apply validate_spec. split; [|rewrite Hn, Hp, Ha; eauto].
    intros k v Hk.
    assert (k ∈ ["id"; "name"; "price"; "available"]) as Hin by eauto.
    repeat (apply elem_of_cons in Hin as [->|Hin]);
      [| | | |by apply elem_of_nil in Hin];
      eexists; (split; [reflexivity|]); cbn [rule_type].
    + by rewrite Hk in Hid.
    + rewrite has_type_string. congruence.
    + rewrite has_type_string. congruence.
    + rewrite has_type_boolean. congruence.
Qed.

Section Footprint.

(** Under the shape, what [find] returns is the item held under the id. *)
Lemma find_some_inv (i : Z) (st st' : store) (it : Item.t) :
  store_ok st -> Item.find i st = (st', Ok (Some it)) ->
  st' = st /\ Item.id it = i /\ i <> 0 /\ holds st it /\ well_typed it = true.
Proof.
  intros Hok Hf.
  destruct (store_ok_lookup st i Hok) as [Hk|(it0 & Hid & Hnz & Hh & Hwt)].
  - rewrite (find_absent _ _ Hk) in Hf. discriminate.
  - subst i. rewrite (find_holds _ _ Hh Hwt) in Hf.
    injection Hf as <- <-. done.
Qed.

Lemma find_cases (i : Z) (st : store) :
  store_ok st ->
  Item.find i st = (st, Ok None) /\ st !! redis_key i = None
  \/ exists it, Item.find i st = (st, Ok (Some it))
                /\ Item.id it = i /\ i <> 0 /\ holds st it /\ well_typed it = true.
Proof.
  intros Hok.
  destruct (store_ok_lookup st i Hok) as [Hk|(it0 & Hid & Hnz & Hh & Hwt)].
  - left. by rewrite (find_absent _ _ Hk).
  - right. exists it0. subst i. by rewrite (find_holds _ _ Hh Hwt).
Qed.

Lemma save_effect_fst (it : Item.t) (st : store) (r : store * result Item.t) :
  Item.save it st = r -> r.1 = (Item.save it st).1.
Proof. by intros <-. Qed.

Lemma create_items_effect (req : Server.Request) (st : store) :
  effect st (Server.create_items req st).1.
Proof.
  unfold Server.create_items.
  assert (forall data : pyobj,
             effect st ((item ← lift (Item.init (PInt 0) PNone PNone (PBool true));
                         item ← Server.deserialize_in_view item data;
                         item ← Item.save item;
                         mret (Server.mkResponse Server.HTTP_201_CREATED
                                 (Server.BJson (Item.serialize item))
                                 (Some ("/items/" +:+ pretty (Item.id item))))) st).1)
    as Hrest.
  { intros data. unfold Server.deserialize_in_view. run_M. simpl.
    destruct (Item.deserialized _ data) as [item|e] eqn:Hd; [|constructor].
    apply deserialized_ok in Hd as [Hid Hwt].
    pose proof (effect_save st item Hwt (or_introl Hid)) as Heff.
    by destruct (Item.save item st) as [st' [item'|e]]. }
  unfold mbind at 1. unfold M_bind at 1.
  destruct (bool_decide _).
  - unfold Server.form_field. run_M.
    destruct (Server.form req !! "name"); [|constructor].
    destruct (Server.form req !! "price"); [|constructor]. apply Hrest.
  - unfold Server.get_json, Server.abort. run_M.
    destruct (Server.is_json req); [|apply Hrest].
    destruct (Server.json req); [apply Hrest|constructor].
Qed.

Lemma update_items_effect (req : Server.Request) (i : Z) (st : store) :
  effect st (Server.update_items req i st).1.
Proof.
  unfold Server.update_items, Server.check_content_type,
    Server.header, Server.abort. run_M.
  destruct (Server.headers req !! "Content-Type") as [ct|]; [|constructor].
  destruct (String.eqb ct "application/json"); [|constructor].
  destruct (st !! redis_key i) as [v|] eqn:Hk;
    [|rewrite (find_absent _ _ Hk); constructor].
  destruct (Item.find i st) as [st1 [[item|]|e]] eqn:Hf;
    pose proof (find_store i st) as Hst; rewrite Hf in Hst; simpl in Hst;
    subst st1; [|constructor..].
  unfold Server.get_json, Server.abort, Server.deserialize_in_view. run_M.
  assert (forall o, effect st
            (match Item.deserialized item o with
             | Ok a =>
                 match Item.save (Item.with_id i a) st with
                 | (st', Ok a0) =>
                     (st', Ok (Server.mkResponse Server.HTTP_200_OK
                                 (Server.BJson (Item.serialize a0)) None))
                 | (st', Raise e) => (st', Raise e)
                 end
             | Raise e => (st, Raise e)
             end).1) as Hrest.
  { intros o. destruct (Item.deserialized item o) as [item2|e] eqn:Hd;
      [|constructor].
    apply deserialized_ok in Hd as [_ Hwt2].
    assert (well_typed (Item.with_id i item2) = true) as Hwt3 by done.
    pose proof (effect_save st (Item.with_id i item2) Hwt3) as Heff.
    simpl in Heff. rewrite Hk in Heff. specialize (Heff (or_intror (mk_is_Some _ _ eq_refl))).
    by destruct (Item.save (Item.with_id i item2) st) as [st' [item'|e]]. }
  destruct (Server.is_json req); [|apply Hrest].
  destruct (Server.json req) as [o|]; [apply Hrest|constructor].
Qed.

Lemma delete_items_effect (req : Server.Request) (i : Z) (st : store) :
  effect st (Server.delete_items req i st).1.
Proof.
  unfold Server.delete_items, Item.delete. run_M.
  destruct (Item.find i st) as [st1 [[item|]|e]] eqn:Hf;
    pose proof (find_store i st) as Hst; rewrite Hf in Hst; simpl in Hst;
    subst st1; [|constructor..].
  simpl. constructor.
Qed.

Lemma purchase_items_effect (req : Server.Request) (i : Z) (st : store) :
  store_ok st -> effect st (Server.purchase_items req i st).1.
Proof.
  intros Hok. unfold Server.purchase_items, Server.abort. run_M.
  destruct (find_cases i st Hok) as [[-> _]|(it & -> & Hid & Hnz & Hh & Hwt)];
    [constructor|].
  destruct (negb (py_truthy (Item.available it))); [constructor|].
  assert (well_typed (Item.with_available (PBool false) it) = true) as Hwt2.
  { unfold well_typed in *. rewrite !andb_true_iff in *. simpl. tauto. }
  pose proof (effect_save st _ Hwt2) as Heff. simpl in Heff.
  unfold holds in Hh. rewrite Hh in Heff.
  specialize (Heff (or_intror (mk_is_Some _ _ eq_refl))).
  by destruct (Item.save (Item.with_available (PBool false) it) st)
    as [st' [item'|e]].
Qed.

Lemma dispatch_effect (c : Server.call) (req : Server.Request) (st : store) :
  store_ok st -> effect st (Server.dispatch c req st).1.
Proof.
  intros Hok. destruct c as [|i| |i|i|i|]; simpl.
  - rewrite list_items_store. constructor.
  - rewrite get_items_store. constructor.
  - apply create_items_effect.
  - apply update_items_effect.
  - apply delete_items_effect.
  - by apply purchase_items_effect.
  - constructor.
Qed.

Lemma ids_issued_empty : ids_issued ∅.
Proof. intros k v Hk. by rewrite lookup_empty in Hk. Qed.

Lemma effect_ids_issued (st st' : store) :
  store_ok st -> ids_issued st -> effect st st' -> ids_issued st'.
Proof.
  intros [Hcv _] Hids Heff. destruct Heff as [|it Hwt Hkey|i|].
  - done.
  - destruct (Item.save it st) as [st' [it'|e]] eqn:Hs;
      [|by apply save_raise in Hs as ->].
    apply save_ok in Hs as (_ & Hit' & _ & Hkeep & Hnew). simpl.
    destruct (decide (Item.id it = 0)) as [Hz|Hnz].
    + destruct (Hnew Hz) as [Hid ->].
      intros k v Hk Hne. rewrite counter_value_insert_key,
        counter_value_insert_index.
      apply lookup_insert_Some in Hk as [[<- <-]|[Hne' Hk]].
      * exists it'. repeat (split; [done|]). lia.
      * rewrite lookup_insert_ne in Hk by done.
        destruct (Hids k v Hk Hne) as (it0 & ? & ? & ?).
        exists it0. repeat (split; [done|]). lia.
    + destruct Hkey as [?|[v0 Hv0]]; [done|].
      destruct (Hkeep Hnz) as [Hid ->].
      intros k v Hk Hne. rewrite counter_value_insert_key.
      apply lookup_insert_Some in Hk as [[<- <-]|[Hne' Hk]]; [|by apply Hids].
      destruct (Hids _ _ Hv0 (redis_key_ne_index _)) as (it0 & _ & Hk0 & Hrange).
      apply redis_key_inj in Hk0. exists it. repeat (split; [done|]). lia.
  - intros k v [_ Hk]%lookup_delete_Some Hne.
    rewrite counter_value_delete_key. by apply Hids.
  - apply ids_issued_empty.
Qed.

Lemma serve_invariants (calls : list (Server.call * Server.Request)) (st : store) :
  store_ok st -> ids_issued st ->
  store_ok (serve calls st) /\ ids_issued (serve calls st).
Proof.
  revert st. induction calls as [|[c req] rest IH]; intros st Hok Hids; [done|].
  simpl. apply IH; [by apply dispatch_store_ok|].
  eapply effect_ids_issued; [done..|by apply dispatch_effect].
Qed.

End Footprint.

(** ** Properties of the routes *)

(** X10.  On a keyspace with the shape the routes keep, every request
    does to the keyspace one of four things: nothing, one [save] of an item
    that passes the schema and either has no id yet or is already stored
    under its id, the removal of one record, or a flush. *)
Theorem routes_footprint (c : Server.call) (req : Server.Request) (st : store) :
  store_ok st -> effect st (Server.dispatch c req st).1.
Proof. apply dispatch_effect. Qed.

Lemma routes_footprint_witness :
  effect two_items
         (Server.dispatch (Server.PurchaseItems 2) text_request two_items).1.
Proof.
  apply (routes_footprint (Server.PurchaseItems 2) text_request two_items).
  exact store_ok_two_items.
Defined.

(** X11.  Whatever requests the service has served since the store was
    flushed, the counter is not negative, every record is the record of an
    item that passes the schema, stored under the key of its own id, and
    every such id lies between 1 and the counter. *)
Theorem served_keyspace_shape (calls : list (Server.call * Server.Request)) :
  store_ok (serve calls ∅) /\ ids_issued (serve calls ∅).
Proof. apply serve_invariants; [apply store_ok_empty|apply ids_issued_empty]. Qed.

Section Routes.

Lemma incr_ready (st : store) :
  counter_ready st ->
  Redis.incr index_key st
  = (<[index_key := Counter (counter_value st + 1)]> st, Ok (counter_value st + 1)).
Proof.
  unfold counter_ready, counter_value. rewrite incr_spec.
  destruct (st !! index_key) as [[n|d]|]; [|done..].
  intros Hn. apply Z.ltb_lt in Hn. by rewrite Hn.
Qed.

(** Saving a new item when the counter can be incremented. *)
Lemma save_new_ready (it : Item.t) (st : store) :
  Item.name it <> PNone -> Item.id it = 0 -> counter_ready st ->
  let i := counter_value st + 1 in
  Item.save it st
  = (<[redis_key i := pickle_dumps (Item.serialize (Item.with_id i it))]>
       (<[index_key := Counter i]> st),
     Ok (Item.with_id i it)).
Proof.
  intros Hn Hz Hready i. rewrite (save_new _ _ Hn Hz).
  by rewrite (incr_ready _ Hready).
Qed.

Lemma ids_issued_fresh (st : store) :
  ids_issued st -> st !! redis_key (counter_value st + 1) = None.
Proof.
  intros Hids. destruct (st !! redis_key _) as [v|] eqn:Hk; [|done].
  destruct (Hids _ _ Hk (redis_key_ne_index _)) as (it & _ & Hkey & Hrange).
  apply redis_key_inj in Hkey. lia.
Qed.

(** The part of [create_items] after the body was read. *)
Lemma create_items_json (req : Server.Request) (data : pyobj) (st : store) :
  Server.headers req !! "Content-Type" <> Some "application/x-www-form-urlencoded" ->
  Server.is_json req = true -> Server.json req = Some data ->
  Server.create_items req st =
  match Item.deserialized (Item.mk 0 PNone PNone (PBool true)) data with
  | Ok item =>
      match Item.save item st with
      | (st', Ok item') =>
          (st', Ok (Server.mkResponse 201 (Server.BJson (Item.serialize item'))
                      (Some ("/items/" +:+ pretty (Item.id item')))))
      | (st', Raise e) => (st', Raise e)
      end
  | Raise e => (st, Raise e)
  end.
Proof.
  intros Hct Hj Hd. unfold Server.create_items, Server.get_json,
    Server.deserialize_in_view.
  rewrite bool_decide_eq_false_2 by done. rewrite Hj, Hd. run_M. simpl.
  destruct (Item.deserialized _ data) as [item|e]; [|done].
  by destruct (Item.save item st) as [st' [item'|e]].
Qed.

Lemma create_items_form (req : Server.Request) (n p : string) (st : store) :
  Server.headers req !! "Content-Type" = Some "application/x-www-form-urlencoded" ->
  Server.form req !! "name" = Some n -> Server.form req !! "price" = Some p ->
  Server.create_items req st =
  match Item.save (Item.mk 0 (PUnicode n) (PUnicode p) (PBool true)) st with
  | (st', Ok item') =>
      (st', Ok (Server.mkResponse 201 (Server.BJson (Item.serialize item'))
                  (Some ("/items/" +:+ pretty (Item.id item')))))
  | (st', Raise e) => (st', Raise e)
  end.
Proof.
  intros Hct Hn Hp. unfold Server.create_items, Server.form_field,
    Server.deserialize_in_view.
  rewrite bool_decide_eq_true_2 by done. rewrite Hn, Hp. run_M. simpl.
  unfold Item.deserialized, Item.deserialize.
  assert (Item.validate
            (<["name":=PUnicode n]> (<["price":=PUnicode p]>
               (<["available":=PBool true]> ∅))) = true) as Hv.
  { apply validate_spec. split.
    - intros k v. rewrite !lookup_insert_Some, lookup_empty.
      intros [[<- <-]|[? [[<- <-]|[? [[<- <-]|[? ?]]]]]]; [..|done];
        eexists; (split; [reflexivity|done]).
    - rewrite !lookup_insert_eq, !lookup_insert_ne, !lookup_insert_eq by done.
      rewrite lookup_insert_ne, lookup_insert_ne, lookup_insert_eq by done.
      eauto. }
  rewrite Hv. unfold getitem.
  rewrite lookup_insert_eq. rewrite lookup_insert_ne, lookup_insert_eq by done.
  rewrite lookup_insert_ne, lookup_insert_ne, lookup_insert_eq by done.
  simpl.
  by destruct (Item.save _ st) as [st' [item'|e]].
Qed.

Lemma deserialized_valid (self : Item.t) (d : dict) :
  Item.validate d = true ->
  exists n p a,
    d !! "name" = Some n /\ d !! "price" = Some p /\ d !! "available" = Some a
    /\ well_typed (Item.mk (Item.id self) n p a) = true
    /\ Item.deserialized self (ODict d) = Ok (Item.mk (Item.id self) n p a).
Proof.
  intros Hv.
  destruct (validate_fields d Hv) as (n & p & a & Hn & Hnt & Hp & Hpt & Ha & Hat).
  exists n, p, a. repeat (split; [done|]). split.
  - unfold well_typed. simpl. by rewrite Hnt, Hpt, Hat.
  - unfold Item.deserialized, Item.deserialize, getitem.
    by rewrite Hv, Hn, Hp, Ha.
Qed.

Lemma deserialized_invalid (self : Item.t) (data : pyobj) :
  match data with
  | ODict d => Item.validate d = false
  | OVal _ => True
  end ->
  Item.deserialized self data = Raise (DataValidationError "Invalid item data").
Proof.
  unfold Item.deserialized, Item.deserialize.
  destruct data as [d|v]; [|done]. by intros ->.
Qed.

Lemma get_items_held (req : Server.Request) (it : Item.t) (st : store) :
  holds st it -> well_typed it = true ->
  Server.get_items req (Item.id it) st
  = (st, Ok (Server.mkResponse 200 (Server.BJson (Item.serialize it)) None)).
Proof.
  intros Hh Hwt. unfold Server.get_items. run_M.
  by rewrite (find_holds _ _ Hh Hwt).
Qed.

Lemma get_items_absent (req : Server.Request) (i : Z) (st : store) :
  st !! redis_key i = None ->
  Server.get_items req i st = (st, Raise (NotFound (Server.not_found_msg i))).
Proof.
  intros Hk. unfold Server.get_items. run_M. by rewrite (find_absent _ _ Hk).
Qed.

End Routes.

(** X12.  [POST /items] with a JSON body that passes the schema, on a
    keyspace with the shape the routes keep and a counter that can be
    incremented: the item gets the next counter value as its id (an id in
    the body is ignored), no record was stored under that id before, the
    record and the counter are the only keys written, the answer is 201
    with the item and its location, and [GET /items/{id}] then returns the
    same item. *)
Theorem create_items_stores_new_item (req req' : Server.Request) (d : dict) (st : store) :
  store_ok st -> ids_issued st -> counter_ready st ->
  Server.headers req !! "Content-Type" <> Some "application/x-www-form-urlencoded" ->
  Server.is_json req = true -> Server.json req = Some (ODict d) ->
  Item.validate d = true ->
  exists n p a,
    d !! "name" = Some n /\ d !! "price" = Some p /\ d !! "available" = Some a
    /\ let i := counter_value st + 1 in
       let it := Item.mk i n p a in
       let st' := <[redis_key i := pickle_dumps (Item.serialize it)]>
                    (<[index_key := Counter i]> st) in
       st !! redis_key i = None
       /\ Server.create_items req st
          = (st', Ok (Server.mkResponse 201 (Server.BJson (Item.serialize it))
                        (Some ("/items/" +:+ pretty i))))
       /\ Server.get_items req' i st'
          = (st', Ok (Server.mkResponse 200 (Server.BJson (Item.serialize it)) None)).
Proof.
  intros Hok Hids Hready Hct Hj Hd Hv.
  destruct (deserialized_valid (Item.mk 0 PNone PNone (PBool true)) d Hv)
    as (n & p & a & Hn & Hp & Ha & Hwt & Hdes).
  exists n, p, a. repeat (split; [done|]). intros i it st'.
  split; [by apply ids_issued_fresh|]. split.
  - rewrite (create_items_json req (ODict d) st Hct Hj Hd), Hdes.
    rewrite save_new_ready; [done| |done..].
    simpl. unfold well_typed in Hwt. simpl in Hwt. by destruct n.
  - apply (get_items_held req' it st'); [apply lookup_insert_eq|exact Hwt].
Qed.

Lemma ids_issued_two_items : ids_issued two_items.
Proof.
  intros k v Hkv Hne.
  assert ((k, v) ∈ map_to_list two_items) as Hin
      by (by apply elem_of_map_to_list).
  vm_compute in Hin.
  repeat (apply elem_of_cons in Hin as [[= -> ->]|Hin]);
    [done|exists fido1|exists kitty2|by apply elem_of_nil in Hin];
    (split; [vm_compute; reflexivity|]); (split; [vm_compute; reflexivity|]);
    vm_compute; (split; [reflexivity|discriminate]).
Qed.

Lemma create_items_stores_new_item_witness :
  exists n p a,
    tabby_data !! "name" = Some n /\ tabby_data !! "price" = Some p
    /\ tabby_data !! "available" = Some a
    /\ let i := counter_value two_items + 1 in
       let it := Item.mk i n p a in
       let st' := <[redis_key i := pickle_dumps (Item.serialize it)]>
                    (<[index_key := Counter i]> two_items) in
       two_items !! redis_key i = None
       /\ Server.create_items put_tabby two_items
          = (st', Ok (Server.mkResponse 201 (Server.BJson (Item.serialize it))
                        (Some ("/items/" +:+ pretty i))))
       /\ Server.get_items plain_request i st'
          = (st', Ok (Server.mkResponse 200 (Server.BJson (Item.serialize it)) None)).
Proof.
  apply (create_items_stores_new_item put_tabby plain_request tabby_data two_items).
  - exact store_ok_two_items.
  - exact ids_issued_two_items.
  - vm_compute. reflexivity.
  - vm_compute. discriminate.
  - reflexivity.
  - reflexivity.
  - vm_compute. reflexivity.
Defined.

(** X13.  [POST /items] with a form submission creates the item from the
    form fields [name] and [price], always available, without consulting
    the JSON body; a form without [name] or without [price] is a bad
    request (400) that leaves the keyspace as it was. *)
Theorem create_items_from_form (req : Server.Request) (st : store) :
  Server.headers req !! "Content-Type" = Some "application/x-www-form-urlencoded" ->
  (forall n p,
      Server.form req !! "name" = Some n -> Server.form req !! "price" = Some p ->
      counter_ready st ->
      let i := counter_value st + 1 in
      let it := Item.mk i (PUnicode n) (PUnicode p) (PBool true) in
      Server.create_items req st
      = (<[redis_key i := pickle_dumps (Item.serialize it)]>
           (<[index_key := Counter i]> st),
         Ok (Server.mkResponse 201 (Server.BJson (Item.serialize it))
               (Some ("/items/" +:+ pretty i)))))
  /\ (Server.form req !! "name" = None \/ Server.form req !! "price" = None ->
      (Server.create_items req st).1 = st
      /\ Server.status_of (Server.create_items req st).2 = 400
      /\ exists k, (Server.create_items req st).2 = Raise (BadRequestKeyError k)).
Proof.
  intros Hct. split.
  - intros n p Hn Hp Hready i it.
    rewrite (create_items_form req n p st Hct Hn Hp).
    by rewrite save_new_ready.
  - intros Hmiss. unfold Server.create_items, Server.form_field.
    rewrite bool_decide_eq_true_2 by done. run_M.
    destruct (Server.form req !! "name") as [n|]; [|simpl; eauto].
    destruct (Server.form req !! "price") as [p|]; [|simpl; eauto].
    by destruct Hmiss.
Qed.

Lemma create_items_from_form_witness :
  let it := Item.mk 3 (PUnicode "sammy") (PUnicode "snake") (PBool true) in
  Server.create_items form_request two_items
  = (<[redis_key 3 := pickle_dumps (Item.serialize it)]>
       (<[index_key := Counter 3]> two_items),
     Ok (Server.mkResponse 201 (Server.BJson (Item.serialize it))
           (Some ("/items/" +:+ pretty 3)))).
Proof.
  apply (proj1 (create_items_from_form form_request two_items eq_refl)
           "sammy" "snake"); vm_compute; reflexivity.
Defined.

(** X14.  [POST /items] with a JSON request whose body is not a
    dictionary that passes the schema answers 400 with the validation
    error, and with a body that does not parse answers 400; in both cases
    nothing is stored and the counter is not advanced. *)
Theorem create_items_rejects_bad_body (req : Server.Request) (st : store) :
  Server.headers req !! "Content-Type" <> Some "application/x-www-form-urlencoded" ->
  Server.is_json req = true ->
  (forall data,
      Server.json req = Some data ->
      match data with
      | ODict d => Item.validate d = false
      | OVal _ => True
      end ->
      Server.create_items req st
      = (st, Raise (DataValidationError "Invalid item data"))
      /\ Server.status_of (Server.create_items req st).2 = 400)
  /\ (Server.json req = None ->
      (Server.create_items req st).1 = st
      /\ Server.status_of (Server.create_items req st).2 = 400).
Proof.
  intros Hct Hj. split.
  - intros data Hd Hbad.
    rewrite (create_items_json req data st Hct Hj Hd).
    by rewrite (deserialized_invalid _ data Hbad).
  - intros Hd. unfold Server.create_items, Server.get_json.
    rewrite bool_decide_eq_false_2 by done. by rewrite Hj, Hd.
Qed.

Lemma create_items_rejects_bad_body_witness :
  Server.create_items post_no_name two_items
  = (two_items, Raise (DataValidationError "Invalid item data"))
  /\ Server.status_of (Server.create_items post_no_name two_items).2 = 400.
Proof.
  apply (proj1 (create_items_rejects_bad_body post_no_name two_items
                  ltac:(vm_compute; discriminate) eq_refl)
           (ODict (<["price" := PUnicode "dog"]> ∅)));
    vm_compute; reflexivity.
Defined.



(** X16.  [PUT /items/{id}] with the JSON content type answers 404 when no
    record is stored under the id, and 400 with the validation error when
    the item exists but the body is not a dictionary that passes the
    schema (also when the framework does not regard the request as JSON);
    in both cases the keyspace is left as it was. *)
Theorem update_items_failures (req : Server.Request) (st : store) :
  Server.headers req !! "Content-Type" = Some "application/json" ->
  (forall i,
      st !! redis_key i = None ->
      Server.update_items req i st
      = (st, Raise (NotFound (Server.not_found_msg i)))
      /\ Server.status_of (Server.update_items req i st).2 = 404)
  /\ (forall it,
         holds st it -> well_typed it = true ->
         Server.is_json req = false
         \/ (exists data,
                Server.is_json req = true /\ Server.json req = Some data
                /\ match data with
                   | ODict d => Item.validate d = false
                   | OVal _ => True
                   end) ->
         Server.update_items req (Item.id it) st
         = (st, Raise (DataValidationError "Invalid item data"))
         /\ Server.status_of (Server.update_items req (Item.id it) st).2 = 400).
Proof.
  intros Hct. split.
  - intros i Hk. unfold Server.update_items, Server.check_content_type,
      Server.header. rewrite Hct. run_M. rewrite String.eqb_refl.
    by rewrite (find_absent _ _ Hk).
  - intros it Hh Hwt Hbody.
    assert (exists data,
               Server.get_json req st = (st, Ok data)
               /\ Item.deserialized it data
                  = Raise (DataValidationError "Invalid item data"))
      as (data & Hget & Hdes).
    { unfold Server.get_json.
      destruct Hbody as [->|(data & -> & -> & Hbad)].
      - exists (OVal PNone). split; [done|]. by apply deserialized_invalid.
      - exists data. split; [done|]. by apply deserialized_invalid. }
    unfold Server.update_items, Server.check_content_type, Server.header,
      Server.deserialize_in_view.
    rewrite Hct. run_M. rewrite String.eqb_refl.
    rewrite (find_holds _ _ Hh Hwt), Hget, Hdes. done.
Qed.

Lemma update_items_failures_witness :
  (Server.update_items put_tabby 5 two_items
   = (two_items, Raise (NotFound (Server.not_found_msg 5)))
   /\ Server.status_of (Server.update_items put_tabby 5 two_items).2 = 404)
  /\ (Server.update_items post_no_name (Item.id kitty2) two_items
      = (two_items, Raise (DataValidationError "Invalid item data"))
      /\ Server.status_of
           (Server.update_items post_no_name (Item.id kitty2) two_items).2 = 400).
Proof.
  split.
  - apply (proj1 (update_items_failures put_tabby two_items eq_refl) 5).
    vm_compute. reflexivity.
  - apply (proj2 (update_items_failures post_no_name two_items eq_refl) kitty2);
      [vm_compute; reflexivity|reflexivity|].
    right. eexists. split; [reflexivity|]. split; [reflexivity|].
    vm_compute. reflexivity.
Defined.

(** X17.  [GET /items/{id}] never changes the keyspace; it answers 404
    when no record is stored under the id and 200 with the stored item when
    one is. *)
Theorem get_items_outcomes (req : Server.Request) (st : store) :
  (forall i, (Server.get_items req i st).1 = st)
  /\ (forall i,
         st !! redis_key i = None ->
         (Server.get_items req i st).2 = Raise (NotFound (Server.not_found_msg i))
         /\ Server.status_of (Server.get_items req i st).2 = 404)
  /\ (forall it,
         holds st it -> well_typed it = true ->
         (Server.get_items req (Item.id it) st).2
         = Ok (Server.mkResponse 200 (Server.BJson (Item.serialize it)) None)).
Proof.
  split; [|split].
  - intros i. apply get_items_store.
  - intros i Hk. by rewrite (get_items_absent req i st Hk).
  - intros it Hh Hwt. by rewrite (get_items_held req it st Hh Hwt).
Qed.

Lemma get_items_outcomes_witness :
  Server.status_of (Server.get_items plain_request 0 two_items).2 = 404
  /\ (Server.get_items plain_request 2 two_items).2
     = Ok (Server.mkResponse 200 (Server.BJson (Item.serialize kitty2)) None).
Proof.
  split.
  - apply (proj1 (proj2 (get_items_outcomes plain_request two_items)) 0).
    vm_compute. reflexivity.
  - apply (proj2 (proj2 (get_items_outcomes plain_request two_items)) kitty2);
      vm_compute; reflexivity.
Defined.

Section Listing.

Lemma arg_truthy (req : Server.Request) (k : string) :
  py_truthy (Server.arg req k) =
  match Server.args req !! k with
  | Some v => negb (String.eqb v "")
  | None => false
  end.
Proof. unfold Server.arg. by destruct (Server.args req !! k). Qed.

Lemma find_by_run (st : store) (attribute : string) (value : pyval)
      (items : list Item.t) :
  records_valid st ->
  (forall it, is_Some (Item.serialize it !! attribute)) ->
  Item.all st = (st, Ok items) ->
  Item.find_by attribute value st
  = (st, Ok (filter (fun it => matches attribute value it) items)).
Proof.
  intros Hvalid Hattr Hall.
  destruct (find_by_filters_all st attribute value Hvalid Hattr)
    as (items' & Hall' & Hby).
  rewrite Hall in Hall'. by injection Hall' as <-.
Qed.

End Listing.

(** X18.  [GET /items] on a keyspace of valid records never changes it and
    answers 200: with neither a [price] nor a [name] argument (or with
    empty ones) it lists every item; a non-empty [price] argument selects
    by price whatever the [name] argument is; a non-empty [name] argument
    selects by name only when there is no non-empty [price].  The query
    value arrives as [unicode] and is compared by the test of the scan. *)
Theorem list_items_selection (req : Server.Request) (st : store) :
  records_valid st ->
  exists items,
    Item.all st = (st, Ok items)
    /\ (py_truthy (Server.arg req "price") = false ->
        py_truthy (Server.arg req "name") = false ->
        Server.list_items req st
        = (st, Ok (Server.mkResponse 200
                     (Server.BJsonList (Item.serialize <$> items)) None)))
    /\ (forall p,
           Server.args req !! "price" = Some p -> p <> "" ->
           Server.list_items req st
           = (st, Ok (Server.mkResponse 200
                        (Server.BJsonList
                           (Item.serialize <$>
                              filter (fun it => matches "price" (PUnicode p) it) items))
                        None)))
    /\ (forall n,
           py_truthy (Server.arg req "price") = false ->
           Server.args req !! "name" = Some n -> n <> "" ->
           Server.list_items req st
           = (st, Ok (Server.mkResponse 200
                        (Server.BJsonList
                           (Item.serialize <$>
                              filter (fun it => matches "name" (PUnicode n) it) items))
                        None))).
Proof.
  intros Hvalid.
  destruct (all_elem_of st Hvalid) as (items & Hall & _).
  exists items. split; [done|].
  assert (forall p, Item.find_by_price (PUnicode p) st
                    = (st, Ok (filter (fun it => matches "price" (PUnicode p) it) items)))
    as Hprice.
  { intros p. apply find_by_run; [done| |done].
    intros it. rewrite serialize_price. eauto. }
  assert (forall n, Item.find_by_name (PUnicode n) st
                    = (st, Ok (filter (fun it => matches "name" (PUnicode n) it) items)))
    as Hname.
  { intros n. apply find_by_run; [done| |done].
    intros it. rewrite serialize_name. eauto. }
  split; [|split].
  - intros Hp Hn. unfold Server.list_items. rewrite Hp, Hn. run_M.
    by rewrite Hall.
  - intros p Hp Hne. unfold Server.list_items.
    rewrite (arg_truthy req "price"), Hp.
    destruct (String.eqb_spec p "") as [->|_]; [done|]. simpl.
    unfold Server.arg at 1. rewrite Hp. run_M. by rewrite Hprice.
  - intros n Hp Hn Hne. unfold Server.list_items. rewrite Hp.
    rewrite (arg_truthy req "name"), Hn.
    destruct (String.eqb_spec n "") as [->|_]; [done|]. simpl.
    unfold Server.arg at 1. rewrite Hn. run_M. by rewrite Hname.
Qed.

Lemma list_items_selection_witness :
  exists items,
    Item.all two_items = (two_items, Ok items)
    /\ Server.list_items query_price_and_name two_items
       = (two_items,
          Ok (Server.mkResponse 200
                (Server.BJsonList
                   (Item.serialize <$>
                      filter (fun it => matches "price" (PUnicode "dog") it) items))
                None)).
Proof.
  destruct (list_items_selection query_price_and_name two_items
              (store_ok_records_valid _ store_ok_two_items))
    as (items & Hall & _ & Hprice & _).
  exists items. split; [exact Hall|].
  apply (Hprice "dog"); [vm_compute; reflexivity|discriminate].
Defined.

(** X19.  Purchasing is one-way: after [PUT /items/{id}/purchase]
    succeeded for an available item, a second purchase of the same id is
    answered 400 "not available" and changes nothing. *)
Theorem purchase_twice_is_rejected (req req' : Server.Request) (it : Item.t)
        (st : store) :
  holds st it -> well_typed it = true ->
  Item.available it = PBool true -> Item.id it <> 0 ->
  let st1 := (Server.purchase_items req (Item.id it) st).1 in
  Server.status_of (Server.purchase_items req (Item.id it) st).2 = 200
  /\ Server.purchase_items req' (Item.id it) st1
     = (st1, Raise (HTTPException 400 (Server.not_available_msg (Item.id it)))).
Proof.
  intros Hh Hwt Ha Hid st1. subst st1.
  rewrite (purchase_available req it st Hh Hwt Ha Hid). simpl.
  split; [done|].
  apply (purchase_unavailable req' (Item.with_available (PBool false) it)).
  - apply lookup_insert_eq.
  - unfold well_typed in *. rewrite !andb_true_iff in *. simpl. tauto.
  - reflexivity.
Qed.

Lemma purchase_twice_is_rejected_witness :
  let st1 := (Server.purchase_items plain_request 2 two_items).1 in
  Server.status_of (Server.purchase_items plain_request 2 two_items).2 = 200
  /\ Server.purchase_items text_request 2 st1
     = (st1, Raise (HTTPException 400 (Server.not_available_msg 2))).
Proof.
  apply (purchase_twice_is_rejected plain_request text_request kitty2 two_items);
    [vm_compute; reflexivity..|discriminate].
Defined.

(** X20.  After [DELETE /items/{id}] of a stored item, [GET /items/{id}]
    answers 404, and a second [DELETE] of the same id is answered 204 and
    leaves the keyspace as the first left it. *)
Theorem delete_then_get_is_404 (req req' : Server.Request) (it : Item.t)
        (st : store) :
  holds st it -> well_typed it = true ->
  let st1 := (Server.delete_items req (Item.id it) st).1 in
  st1 = delete (redis_key (Item.id it)) st
  /\ Server.get_items req' (Item.id it) st1
     = (st1, Raise (NotFound (Server.not_found_msg (Item.id it))))
  /\ Server.delete_items req' (Item.id it) st1
     = (st1, Ok (Server.mkResponse 204 Server.BEmpty None)).
Proof.
  intros Hh Hwt st1. subst st1.
  rewrite (delete_present req it st Hh Hwt). simpl. split; [done|].
  assert (delete (redis_key (Item.id it)) st !! redis_key (Item.id it) = None)
    as Hk by apply lookup_delete_eq.
  split; [by apply get_items_absent|by apply delete_absent].
Qed.

Lemma delete_then_get_is_404_witness :
  let st1 := (Server.delete_items plain_request 2 two_items).1 in
  st1 = delete (redis_key 2) two_items
  /\ Server.get_items plain_request 2 st1
     = (st1, Raise (NotFound (Server.not_found_msg 2)))
  /\ Server.delete_items plain_request 2 st1
     = (st1, Ok (Server.mkResponse 204 Server.BEmpty None)).
Proof.
  apply (delete_then_get_is_404 plain_request plain_request kitty2 two_items);
    vm_compute; reflexivity.
Defined.

(** X21.  [data_load] reads only the [name] and [price] of its payload:
    the item it saves has no id yet and is available, whatever the payload
    says about [id] and [available], so two payloads with the same name and
    price load the same item; a payload without [name] or without [price]
    raises [KeyError] before anything is stored. *)
Theorem data_load_reads_name_and_price (payload : dict) (st : store) :
  (forall n p,
      payload !! "name" = Some n -> payload !! "price" = Some p ->
      (Server.data_load payload st).1
      = (Item.save (Item.mk 0 n p (PBool true)) st).1
      /\ ((Server.data_load payload st).2 = Ok tt
          <-> exists it', (Item.save (Item.mk 0 n p (PBool true)) st).2 = Ok it'))
  /\ (payload !! "name" = None \/ payload !! "price" = None ->
      (Server.data_load payload st).1 = st
      /\ exists k, (Server.data_load payload st).2 = Raise (KeyError k)).
Proof.
  split.
  - intros n p Hn Hp. unfold Server.data_load, getitem. rewrite Hn, Hp.
    run_M. simpl.
    destruct (Item.save (Item.mk 0 n p (PBool true)) st) as [st' [it'|e]]; simpl.
    + split; [done|]. split; eauto.
    + split; [done|]. split; [discriminate|]. by intros [? ?].
  - intros Hmiss. unfold Server.data_load, getitem. run_M.
    destruct (payload !! "name") as [n|]; [|simpl; eauto].
    destruct (payload !! "price") as [p|]; [|simpl; eauto].
    by destruct Hmiss.
Qed.

Lemma data_load_reads_name_and_price_witness :
  (Server.data_load (Item.serialize sold_kitty2) ∅).1
  = (Item.save (Item.mk 0 (PStr "kitty") (PStr "cat") (PBool true)) ∅).1
  /\ (Server.data_load tabby_data ∅).2 = Ok tt.
Proof.
  split.
  - apply (proj1 (data_load_reads_name_and_price (Item.serialize sold_kitty2) ∅)
             (PStr "kitty") (PStr "cat")); vm_compute; reflexivity.
  - apply (proj1 (data_load_reads_name_and_price tabby_data ∅)
             (PUnicode "kitty") (PUnicode "tabby") eq_refl eq_refl).
    eexists. vm_compute. reflexivity.
Defined.

(** ** Finding the Redis service *)

(** X22.  When [init_db] returns normally, [Item.redis] is a client whose
    server answered the ping; when it raises the connection error,
    [Item.redis] is [None], whatever it was before; [connect_to_redis]
    returns what it left in [Item.redis]. *)
Theorem init_db_leaves_live_connection (w : Connection.env)
        (client redis : option Connection.endpoint) :
  (forall redis',
      Connection.init_db w client redis = (redis', Connection.Done tt) ->
      exists e, redis' = Some e /\ Connection.ping w e = Connection.Pong)
  /\ (forall redis' msg,
         Connection.init_db w client redis
         = (redis', Connection.Fail (Connection.ConnectionError msg)) ->
         redis' = None /\ msg = Connection.no_service)
  /\ (forall e redis' r,
         Connection.connect_to_redis w e redis = (redis', Connection.Done r) ->
         r = redis'
         /\ (redis' = None \/ redis' = Some e /\ Connection.ping w e = Connection.Pong)).
Proof.
  assert (forall e s s' r,
             Connection.connect_to_redis w e s = (s', Connection.Done r) ->
             r = s' /\ (s' = None \/ s' = Some e /\ Connection.ping w e = Connection.Pong))
    as Hconn.
  { intros e s s' r. unfold Connection.connect_to_redis.
    destruct (Connection.ping w e) eqn:Hp; intros [= <- <-]; eauto. }
  assert (forall e s s' f,
             Connection.connect_to_redis w e s = (s', Connection.Fail f) ->
             exists x, f = Connection.Other x) as Hfail.
  { intros e s s' f. unfold Connection.connect_to_redis.
    destruct (Connection.ping w e); intros [= <- <-]; eauto. }
  split; [|split; [|intros e redis' r; apply Hconn]].
  - intros redis'. unfold Connection.init_db. destruct client as [c|].
    { destruct (Connection.ping w c) eqn:Hp; intros [= <-]; eauto. }
    destruct (Connection.vcap_services w) as [[creds|x]|].
    + destruct (Connection.connect_to_redis w creds redis) as [[c|] [r|f]] eqn:Hc;
        intros [= <-].
      apply Hconn in Hc as [_ [?|[[= <-] ?]]]; [done|eauto].
    + destruct redis; discriminate.
    + destruct (Connection.connect_to_redis w Connection.localhost redis)
        as [[c|] [r|f]] eqn:Hc.
      * intros [= <-]. apply Hconn in Hc as [_ [?|[[= <-] ?]]]; [done|eauto].
      * discriminate.
      * destruct (Connection.connect_to_redis w Connection.redis_host None)
          as [[c|] [r'|f]] eqn:Hc'; intros [= <-].
        apply Hconn in Hc' as [_ [?|[[= <-] ?]]]; [done|eauto].
      * discriminate.
  - intros redis' msg. unfold Connection.init_db. destruct client as [c|].
    { destruct (Connection.ping w c) eqn:Hp; intros [= <- <-]; eauto. }
    destruct (Connection.vcap_services w) as [[creds|x]|].
    + destruct (Connection.connect_to_redis w creds redis) as [[c|] [r|f]] eqn:Hc;
        intros [= <- Hf]; try done;
        apply Hfail in Hc as [x ->]; discriminate.
    + destruct redis; discriminate.
    + destruct (Connection.connect_to_redis w Connection.localhost redis)
        as [[c|] [r|f]] eqn:Hc.
      * discriminate.
      * intros [= <- Hf]. apply Hfail in Hc as [x ->]. discriminate.
      * destruct (Connection.connect_to_redis w Connection.redis_host None)
          as [[c|] [r'|f]] eqn:Hc'; intros [= <- Hf]; try done;
          apply Hfail in Hc' as [x ->]; discriminate.
      * intros [= <- Hf]. apply Hfail in Hc as [x ->]. discriminate.
Qed.

Lemma init_db_leaves_live_connection_witness :
  exists e, Some Connection.redis_host = Some e
            /\ Connection.ping only_redis_host e = Connection.Pong.
Proof.
  apply (proj1 (init_db_leaves_live_connection only_redis_host None None)
           (Some Connection.redis_host)).
  reflexivity.
Defined.

(** X23.  The order in which [init_db] looks for the service: a client
    passed by the caller is the only one pinged; otherwise, when
    [VCAP_SERVICES] is set, only the bound service is pinged, and if it
    refuses the call fails even if a local server would answer; otherwise
    the local host is pinged first and the host named [redis] only when the
    local host refuses, and the call fails when both refuse. *)
Theorem init_db_search_order (w : Connection.env)
        (redis : option Connection.endpoint) :
  (forall c,
      (Connection.ping w c = Connection.Pong ->
       Connection.init_db w (Some c) redis = (Some c, Connection.Done tt))
      /\ (Connection.ping w c = Connection.Refused ->
          Connection.init_db w (Some c) redis
          = (None, Connection.Fail (Connection.ConnectionError Connection.no_service))))
  /\ (forall creds,
         Connection.vcap_services w = Some (Ok creds) ->
         (Connection.ping w creds = Connection.Pong ->
          Connection.init_db w None redis = (Some creds, Connection.Done tt))
         /\ (Connection.ping w creds = Connection.Refused ->
             Connection.init_db w None redis
             = (None, Connection.Fail (Connection.ConnectionError Connection.no_service))))
  /\ (Connection.vcap_services w = None ->
      (Connection.ping w Connection.localhost = Connection.Pong ->
       Connection.init_db w None redis = (Some Connection.localhost, Connection.Done tt))
      /\ (Connection.ping w Connection.localhost = Connection.Refused ->
          Connection.ping w Connection.redis_host = Connection.Pong ->
          Connection.init_db w None redis
          = (Some Connection.redis_host, Connection.Done tt))
      /\ (Connection.ping w Connection.localhost = Connection.Refused ->
          Connection.ping w Connection.redis_host = Connection.Refused ->
          Connection.init_db w None redis
          = (None, Connection.Fail (Connection.ConnectionError Connection.no_service)))).
Proof.
  split; [|split].
  - intros c. split; intros Hp; unfold Connection.init_db; by rewrite Hp.
  - intros creds Hv. split; intros Hp;
      unfold Connection.init_db, Connection.connect_to_redis; by rewrite Hv, Hp.
  - intros Hv. split; [|split].
    + intros Hp. unfold Connection.init_db, Connection.connect_to_redis.
      by rewrite Hv, Hp.
    + intros Hp Hp'. unfold Connection.init_db, Connection.connect_to_redis.
      by rewrite Hv, Hp, Hp'.
    + intros Hp Hp'. unfold Connection.init_db, Connection.connect_to_redis.
      by rewrite Hv, Hp, Hp'.
Qed.

Lemma init_db_search_order_witness :
  Connection.init_db bound_down None None
  = (None, Connection.Fail (Connection.ConnectionError Connection.no_service))
  /\ Connection.init_db only_redis_host None None
     = (Some Connection.redis_host, Connection.Done tt).
Proof.
  split.
  - apply (proj2 (proj1 (proj2 (init_db_search_order bound_down None))
                    bound_service eq_refl)).
    reflexivity.
  - apply (proj1 (proj2 (proj2 (proj2 (init_db_search_order only_redis_host None))
                           eq_refl))); reflexivity.
Defined.
